(** * structmap: conversion of a struct into a string-keyed map, driven by tags

    A shallow embedding of [structmap.go] (functions [StructToMap],
    [tagsReader], [assignValueWithMethod] and [callFunc]) together with the
    part of Go's [reflect] and [strings] packages that these functions use,
    followed by the properties of the conversion. *)

From Stdlib Require Import ZArith String Ascii.
From Stdlib Require Import Floats.SpecFloat.
From stdpp Require Import gmap strings list fin_maps.

Local Open Scope string_scope.
Local Open Scope Z_scope.

(** ** The reflection facility *)

(** [reflect.Kind], in the order of the Go declaration, and [Kind.String]. *)
Module reflect.

Inductive Kind : Set :=
| Invalid | Bool
| Int | Int8 | Int16 | Int32 | Int64
| Uint | Uint8 | Uint16 | Uint32 | Uint64 | Uintptr
| Float32 | Float64 | Complex64 | Complex128
| Array | Chan | Func | Interface | Map | Pointer | Slice | String | Struct
| UnsafePointer.

Definition Kind_String (k : Kind) : string :=
  match k with
  | Invalid => "invalid" | Bool => "bool"
  | Int => "int" | Int8 => "int8" | Int16 => "int16" | Int32 => "int32"
  | Int64 => "int64"
  | Uint => "uint" | Uint8 => "uint8" | Uint16 => "uint16"
  | Uint32 => "uint32" | Uint64 => "uint64" | Uintptr => "uintptr"
  | Float32 => "float32" | Float64 => "float64"
  | Complex64 => "complex64" | Complex128 => "complex128"
  | Array => "array" | Chan => "chan" | Func => "func"
  | Interface => "interface" | Map => "map" | Pointer => "ptr"
  | Slice => "slice" | String => "string" | Struct => "struct"
  | UnsafePointer => "unsafe.Pointer"
  end.

#[global] Instance Kind_eq_dec : EqDecision Kind.
Proof. solve_decision. Defined.

End reflect.

(** Bit widths of the numeric kinds. *)
Inductive intSize : Set := SizeInt | Size8 | Size16 | Size32 | Size64.
Inductive floatSize : Set := SizeF32 | SizeF64.
Inductive complexSize : Set := SizeC64 | SizeC128.

(** [reflect.StructTag] in its conventional form: the [key:"value"] pairs in
    the order they are written. [Lookup] returns the value of the first pair
    with the given key. *)
Definition StructTag : Type := list (string * string).

Fixpoint Lookup (t : StructTag) (key : string) : option string :=
  match t with
  | [] => None
  | (k, v) :: rest => if decide (k = key) then Some v else Lookup rest key
  end.

(** [reflect.StructField]: [PkgPath] is empty exactly for exported fields. *)
Record StructField : Type := mkStructField {
  Name : string;
  PkgPath : string;
  Tag : StructTag
}.

(** A call either returns or panics. *)
Inductive outcome (A : Type) : Type :=
| Ret (a : A)
| Panic (msg : string).
Arguments Ret {A} a.
Arguments Panic {A} msg.

(** A Go value as reflection sees it (a [reflect.Value]): the exported method
    set of its type, and its contents by kind. A method is described by what
    [reflect] needs to call it, [NumIn] and [IsVariadic], and by what running
    it on this receiver does: it returns its outputs, or it panics (its own
    code may, and so does a value method reached through a nil pointer). For
    a value of interface kind the method set is that of the interface type,
    served by the dynamic value. Values are finite trees: the conversion is
    for acyclic data, a pointer cycle has no counterpart here. *)
Inductive value : Type :=
| Val (methods : list (string * Method)) (d : data)
with data : Type :=
| DBool (b : bool)
| DInt (sz : intSize) (n : Z)
| DUint (sz : intSize) (n : Z)
| DUintptr (n : Z)
| DFloat (sz : floatSize) (f : spec_float)
| DComplex (sz : complexSize) (re im : spec_float)
| DString (s : string)
| DArray (elems : list value)
| DSlice (elems : option (list value))
| DMap (entries : option (list (value * value)))
| DChan (ch : option nat)
| DFunc (fn : option nat)
| DUnsafePointer (addr : Z)
| DPointer (target : option value)
| DInterface (content : option value)
| DStruct (fields : list (StructField * value))
with Method : Type :=
| MkMethod (numIn : nat) (variadic : bool) (body : outcome (list value)).

Definition methodsOf (v : value) : list (string * Method) :=
  match v with Val ms _ => ms end.

Definition dataOf (v : value) : data :=
  match v with Val _ d => d end.

Definition intKind (sz : intSize) : reflect.Kind :=
  match sz with
  | SizeInt => reflect.Int | Size8 => reflect.Int8 | Size16 => reflect.Int16
  | Size32 => reflect.Int32 | Size64 => reflect.Int64
  end.

Definition uintKind (sz : intSize) : reflect.Kind :=
  match sz with
  | SizeInt => reflect.Uint | Size8 => reflect.Uint8 | Size16 => reflect.Uint16
  | Size32 => reflect.Uint32 | Size64 => reflect.Uint64
  end.

(** [Value.Kind]. *)
Definition Kind (v : value) : reflect.Kind :=
  match dataOf v with
  | DBool _ => reflect.Bool
  | DInt sz _ => intKind sz
  | DUint sz _ => uintKind sz
  | DUintptr _ => reflect.Uintptr
  | DFloat SizeF32 _ => reflect.Float32
  | DFloat SizeF64 _ => reflect.Float64
  | DComplex SizeC64 _ _ => reflect.Complex64
  | DComplex SizeC128 _ _ => reflect.Complex128
  | DString _ => reflect.String
  | DArray _ => reflect.Array
  | DSlice _ => reflect.Slice
  | DMap _ => reflect.Map
  | DChan _ => reflect.Chan
  | DFunc _ => reflect.Func
  | DUnsafePointer _ => reflect.UnsafePointer
  | DPointer _ => reflect.Pointer
  | DInterface _ => reflect.Interface
  | DStruct _ => reflect.Struct
  end.

(** [Value.IsNil]; Go panics on the kinds that have no nil, the conversion
    calls it on pointers only. *)
Definition IsNil (v : value) : bool :=
  match dataOf v with
  | DSlice None | DMap None | DChan None | DFunc None
  | DPointer None | DInterface None => true
  | DUnsafePointer a => a =? 0
  | _ => false
  end.

(** [Value.Elem] of a non-nil pointer or interface. *)
Definition Elem (v : value) : value :=
  match v with
  | Val _ (DPointer (Some x)) => x
  | Val _ (DInterface (Some x)) => x
  | _ => v
  end.

(** A float equal to zero: [+0] or [-0]. *)
Definition isFloatZero (f : spec_float) : bool :=
  match f with
  | S754_zero _ => true
  | _ => false
  end.

(** [Value.IsZero]: whether the value is the zero value of its type, that
    is, equal to it by [==] where the type is comparable: a negative zero
    is zero, and the blank fields [_] of a struct are not looked at. *)
Fixpoint IsZero (v : value) : bool :=
  match v with
  | Val _ d =>
    match d with
    | DBool b => negb b
    | DInt _ n | DUint _ n | DUintptr n | DUnsafePointer n => n =? 0
    | DFloat _ f => isFloatZero f
    | DComplex _ re im => isFloatZero re && isFloatZero im
    | DString s => (String.length s =? 0)%nat
    | DArray elems => forallb IsZero elems
    | DSlice None | DMap None | DChan None | DFunc None
    | DPointer None | DInterface None => true
    | DSlice _ | DMap _ | DChan _ | DFunc _
    | DPointer _ | DInterface _ => false
    | DStruct fields =>
        forallb (fun '(ft, x) => bool_decide (Name ft = "_") || IsZero x) fields
    end
  end.

(** [Type.MethodByName] and [Value.MethodByName]: the exported method of
    that name, if the type has one. *)
Fixpoint lookupMethod (ms : list (string * Method)) (name : string)
  : option Method :=
  match ms with
  | [] => None
  | (n, m) :: rest => if decide (n = name) then Some m else lookupMethod rest name
  end.

Definition MethodByName (v : value) (name : string) : option Method :=
  lookupMethod (methodsOf v) name.

(** ** Interface values and the output container *)

(** What an [interface{}] holds: nothing, an ordinary Go value with its
    dynamic type, a [reflect.Value] (the handle itself, stored as such), or
    a [MappedStruct] (a map, possibly the nil map). *)
#[warnings="-register-all"]
Inductive any : Type :=
| ANil
| AGo (v : value)
| AReflectValue (v : value)
| AMappedStruct (m : option (gmap string any)).

Abbreviation MappedStruct := (gmap string any).

(** [Value.Interface]: a value of interface kind gives up what it holds. *)
Definition Interface (v : value) : any :=
  match v with
  | Val _ (DInterface None) => ANil
  | Val _ (DInterface (Some x)) => AGo x
  | _ => AGo v
  end.

(** Values of the predeclared types [int64], [uint64], [float64],
    [complex128], [string] and [bool]: they have no methods. *)
Definition int64 (n : Z) : any := AGo (Val [] (DInt Size64 n)).
Definition uint64 (n : Z) : any := AGo (Val [] (DUint Size64 n)).
Definition float64 (f : spec_float) : any := AGo (Val [] (DFloat SizeF64 f)).
Definition complex128 (re im : spec_float) : any :=
  AGo (Val [] (DComplex SizeC128 re im)).
Definition gostring (s : string) : any := AGo (Val [] (DString s)).
Definition gobool (b : bool) : any := AGo (Val [] (DBool b)).

(** The order in which a [for k, v := range m] loop visits a map is not
    fixed by the language: the conversion is parameterised by it. Every
    order visits each entry once. *)
Record RangeOrder : Type := mkRangeOrder {
  rangeOf : MappedStruct -> list (string * any);
  rangeOf_perm : forall m, rangeOf m ≡ₚ map_to_list m
}.

Definition keyOrder : RangeOrder :=
  {| rangeOf := map_to_list; rangeOf_perm := fun m => reflexivity _ |}.

(** ** Results, errors and panics *)

(** The errors of the package, each built by [fmt.Errorf]. *)
Inductive error : Type :=
| ErrNilPointer (k : reflect.Kind)
| ErrNotStruct (k : reflect.Kind)
| ErrMethodOutputs (method : string)
| ErrMethodFirstOutput (method : string).

Definition Error (e : error) : string :=
  match e with
  | ErrNilPointer k => reflect.Kind_String k +:+ " is a nil pointer"
  | ErrNotStruct k => "data is not a struct but " +:+ reflect.Kind_String k
  | ErrMethodOutputs m =>
      ("wrong method " +:+ m) +:+ ", should have 2 output: (string,interface{})"
  | ErrMethodFirstOutput m =>
      ("wrong method " +:+ m) +:+ ", first output should be string"
  end.

Inductive ErrorKind : Set := NilInput | NotARecord | InvalidOverrideSignature.

Definition errorKind (e : error) : ErrorKind :=
  match e with
  | ErrNilPointer _ => NilInput
  | ErrNotStruct _ => NotARecord
  | ErrMethodOutputs _ | ErrMethodFirstOutput _ => InvalidOverrideSignature
  end.

(** What [StructToMap] returns: the pair [(MappedStruct, error)], where the
    first component may be the nil map and the second the nil error. *)
Definition returned : Type := option (MappedStruct) * option error.

(** How one iteration of the field loop ends: [continue] (or falling off the
    end of the body) with the container built so far, a [return], or a
    panic. *)
Inductive flow : Type :=
| Continue (result : MappedStruct)
| Return (r : returned)
| Panicked (msg : string).

(** ** The package *)

Definition OPTION_IGNORE : string := "-".
Definition OPTION_OMITEMPTY : string := "omitempty".
Definition OPTION_DIVE : string := "dive".
Definition OPTION_WILDCARD : string := "wildcard".
Definition OPTION_DOTTED : string := "dotted".

Definition method_results_total : nat := 2.

Definition FLAG_IGNORE : Z := Z.shiftl 1 0.
Definition FLAG_OMITEMPTY : Z := Z.shiftl 1 1.
Definition FLAG_DIVE : Z := Z.shiftl 1 2.
Definition FLAG_WILDCARD : Z := Z.shiftl 1 3.
Definition FLAG_DOTTED : Z := Z.shiftl 1 4.

(** [flag&F != 0]. *)
Definition hasFlag (flag F : Z) : bool := negb (Z.land flag F =? 0).

(** [strings.Split] for a separator of one byte. *)
Fixpoint Split (s : string) (sep : ascii) : list string :=
  match s with
  | EmptyString => [EmptyString]
  | String.String c rest =>
    if decide (c = sep) then EmptyString :: Split rest sep
    else match Split rest sep with
         | [] => [String.String c EmptyString]
         | h :: t => String.String c h :: t
         end
  end.

(** The [switch opts[i]] of [tagsReader]. *)
Definition optionFlag (flag : Z) (opt : string) : Z :=
  if decide (opt = OPTION_IGNORE) then Z.lor flag FLAG_IGNORE
  else if decide (opt = OPTION_OMITEMPTY) then Z.lor flag FLAG_OMITEMPTY
  else if decide (opt = OPTION_DIVE) then Z.lor flag FLAG_DIVE
  else if decide (opt = OPTION_WILDCARD) then Z.lor flag FLAG_WILDCARD
  else if decide (opt = OPTION_DOTTED) then Z.lor flag FLAG_DOTTED
  else flag.

Definition tagsReader (structField : StructField) (tag : string)
  : outcome (string * Z) :=
  let flag := 0 in
  let fTag := "" in
  match Lookup (Tag structField) tag with
  | None => Ret (fTag, Z.lor flag FLAG_IGNORE)
  | Some tagValue =>
    let opts := Split tagValue "," in
    match opts !! 0%nat with
    | None => Panic "index out of range"
    | Some fTag => Ret (fTag, foldl optionFlag flag opts)
    end
  end.

(** [Value.Call] with no arguments: the argument count is checked against
    the signature, then the method runs. *)
Definition Call (m : Method) : outcome (list value) :=
  match m with
  | MkMethod numIn variadic body =>
    if (if variadic then 0 <? numIn - 1 else 0 <? numIn)%nat
    then Panic "reflect: Call with too few input arguments"
    else body
  end.

Definition stringOf (v : value) : string :=
  match dataOf v with
  | DString s => s
  | _ => ""
  end.

Definition callFunc (reflectedValue : value) (method : string)
  : outcome (string * any * option error) :=
  match MethodByName reflectedValue method with
  | None => Panic "reflect: call of reflect.Value.Call on zero Value"
  | Some m =>
    if bool_decide (Kind reflectedValue = reflect.Interface) && IsNil reflectedValue
    then Panic "reflect: Method on nil interface value"
    else
      match Call m with
      | Panic msg => Panic msg
      | Ret methodResults =>
        if negb (length methodResults =? method_results_total)%nat
        then Ret ("", ANil, Some (ErrMethodOutputs method))
        else
          match methodResults with
          | r0 :: r1 :: _ =>
            if negb (bool_decide (Kind r0 = reflect.String))
            then Ret ("", ANil, Some (ErrMethodFirstOutput method))
            else Ret (stringOf r0, Interface r1, None)
          | _ => Panic "index out of range"
          end
      end
  end.

Definition assignValueWithMethod (reflectedValue : value) (method : string)
  : outcome (string * any * option error) :=
  if decide (method = "") then Ret ("", ANil, None)
  else
    match MethodByName reflectedValue method with
    | None => Ret ("", ANil, None)
    | Some _ =>
      match callFunc reflectedValue method with
      | Panic msg => Panic msg
      | Ret (key, value, Some err) => Ret ("", ANil, Some err)
      | Ret (key, value, None) => Ret (key, value, None)
      end
    end.

(** [for k, v := range deepRes { result[key(k)] = v }]; ranging over the nil
    map visits nothing. *)
Definition rangeInto (ro : RangeOrder) (key : string -> string)
    (deepRes : option MappedStruct) (result : MappedStruct) : MappedStruct :=
  foldl (fun result kv => <[key kv.1 := kv.2]> result) result
        (match deepRes with
         | None => []
         | Some m => rangeOf ro m
         end).

(** The [switch fieldValue.Kind()] of [StructToMap]; [self] is the
    recursive call [StructToMap(fieldValue.Interface(), tag, method)]. *)
Definition kindSwitch (ro : RangeOrder) (self : value -> outcome returned)
    (tagVal : string) (flag : Z) (result : MappedStruct)
    (fieldValue : value) : flow :=
  match dataOf fieldValue with
  | DSlice _ | DArray _ | DMap _ | DChan _ =>
      Continue (<[tagVal := AReflectValue fieldValue]> result)
  | DStruct _ =>
      match self fieldValue with
      | Panic msg => Panicked msg
      | Ret (_, Some deepErr) => Return (None, Some deepErr)
      | Ret (deepRes, None) =>
          if hasFlag flag FLAG_DIVE
          then Continue (rangeInto ro (fun k => k) deepRes result)
          else if hasFlag flag FLAG_DOTTED
          then Continue (rangeInto ro (fun k => (tagVal +:+ ".") +:+ k) deepRes result)
          else Continue (<[tagVal := AMappedStruct deepRes]> result)
      end
  | DInt _ n => Continue (<[tagVal := int64 n]> result)
  | DUint _ n => Continue (<[tagVal := uint64 n]> result)
  | DFloat _ f => Continue (<[tagVal := float64 f]> result)
  | DString s =>
      if hasFlag flag FLAG_WILDCARD
      then Continue (<[tagVal := gostring (("%" +:+ s) +:+ "%")]> result)
      else Continue (<[tagVal := gostring s]> result)
  | DBool b => Continue (<[tagVal := gobool b]> result)
  | DComplex _ re im => Continue (<[tagVal := complex128 re im]> result)
  | DInterface _ => Continue (<[tagVal := Interface fieldValue]> result)
  | DUintptr _ | DFunc _ | DUnsafePointer _ | DPointer _ => Continue result
  end.

(** The override hook followed by the kind switch, on the field value with
    its pointer resolved. *)
Definition dispatch (ro : RangeOrder) (self : value -> outcome returned)
    (method : string) (tagVal : string) (flag : Z)
    (result : MappedStruct) (fieldValue : value) : flow :=
  match assignValueWithMethod fieldValue method with
  | Panic msg => Panicked msg
  | Ret (_, _, Some err) => Return (None, Some err)
  | Ret (key, value, None) =>
    if negb (bool_decide (key = ""))
    then Continue (<[key := value]> result)
    else kindSwitch ro self tagVal flag result fieldValue
  end.

(** The body of the loop over the fields. *)
Definition fieldBody (ro : RangeOrder) (self : value -> outcome returned)
    (tag method : string) (result : MappedStruct)
    (fieldType : StructField) (fieldValue : value) : flow :=
  if negb (bool_decide (PkgPath fieldType = "")) then Continue result
  else
    match tagsReader fieldType tag with
    | Panic msg => Panicked msg
    | Ret (tagVal, flag) =>
      if hasFlag flag FLAG_IGNORE then Continue result
      else if hasFlag flag FLAG_OMITEMPTY && IsZero fieldValue then Continue result
      else if bool_decide (Kind fieldValue = reflect.Pointer) && IsNil fieldValue
      then Continue result
      else
        let fieldValue :=
          if bool_decide (Kind fieldValue = reflect.Pointer)
          then Elem fieldValue else fieldValue in
        dispatch ro self method tagVal flag result fieldValue
    end.

(** The loop [for i := 0; i < reflectType.NumField(); i++]. *)
Section FieldLoop.
Variable body : MappedStruct -> StructField -> value -> flow.

Fixpoint forFields (fields : list (StructField * value))
    (result : MappedStruct) : flow :=
  match fields with
  | [] => Continue result
  | (fieldType, fieldValue) :: rest =>
    match body result fieldType fieldValue with
    | Continue result' => forFields rest result'
    | Return r => Return r
    | Panicked msg => Panicked msg
    end
  end.
End FieldLoop.

(** After the loop comes [return result, nil]. *)
Definition returnAfter (f : flow) : outcome returned :=
  match f with
  | Continue result => Ret (Some result, None)
  | Return r => Ret r
  | Panicked msg => Panic msg
  end.

(** [StructToMap] from [reflectedValue := reflect.ValueOf(data)] on. *)
Fixpoint StructToMapOf (ro : RangeOrder) (tag method : string)
    (reflectedValue : value) {struct reflectedValue} : outcome returned :=
  let result : MappedStruct := ∅ in
  if bool_decide (Kind reflectedValue = reflect.Pointer) && IsNil reflectedValue
  then Ret (None, Some (ErrNilPointer (Kind reflectedValue)))
  else
    let reflectedValue :=
      if bool_decide (Kind reflectedValue = reflect.Pointer)
      then Elem reflectedValue else reflectedValue in
    match reflectedValue with
    | Val _ (DStruct fields) =>
        returnAfter
          (forFields (fieldBody ro (StructToMapOf ro tag method) tag method)
                     fields result)
    | _ => Ret (None, Some (ErrNotStruct (Kind reflectedValue)))
    end.

(** [StructToMap]: [data] is an [interface{}], given here by what it holds:
    nothing, or its dynamic value, which is never itself of interface kind
    ([reflect.ValueOf] unwraps). [reflect.ValueOf] of the nil interface is
    the zero [Value], whose kind is [Invalid]. *)
Definition StructToMap (ro : RangeOrder) (data : option value)
    (tag method : string) : outcome returned :=
  match data with
  | None => Ret (None, Some (ErrNotStruct reflect.Invalid))
  | Some reflectedValue => StructToMapOf ro tag method reflectedValue
  end.

(** ** Notions used to state the properties *)

(** Lines 98-103 of [StructToMap]: a nil pointer resolves to nothing, any
    other pointer to its target, any other value to itself. *)
Definition resolved (fieldValue : value) : option value :=
  if bool_decide (Kind fieldValue = reflect.Pointer)
  then (if IsNil fieldValue then None else Some (Elem fieldValue))
  else Some fieldValue.

(** The field is visible, is not ignored, is not omitted as empty and
    resolves to [fv]: the override hook is tried on [fv]. *)
Definition reachesOverride (tag : string) (fieldType : StructField)
    (fieldValue : value) (tagVal : string) (flag : Z) (fv : value) : Prop :=
  PkgPath fieldType = ""
  /\ tagsReader fieldType tag = Ret (tagVal, flag)
  /\ hasFlag flag FLAG_IGNORE = false
  /\ hasFlag flag FLAG_OMITEMPTY && IsZero fieldValue = false
  /\ resolved fieldValue = Some fv.

(** ... and the hook yields no key: the field reaches the kind switch. *)
Definition reachesGenericDispatch (tag method : string)
    (fieldType : StructField) (fieldValue : value) (tagVal : string)
    (flag : Z) (fv : value) : Prop :=
  reachesOverride tag fieldType fieldValue tagVal flag fv
  /\ exists value, assignValueWithMethod fv method = Ret ("", value, None).

(** The kind of the input after at most one dereference; nothing for a nil
    pointer. *)
Definition resolvedKind (data : option value) : option reflect.Kind :=
  match data with
  | None => Some reflect.Invalid
  | Some v => Kind <$> resolved v
  end.

(** The kinds listed in the cases of the kind switch. *)
Definition handledKinds : list reflect.Kind :=
  [reflect.Slice; reflect.Array; reflect.Map; reflect.Chan;
   reflect.Struct;
   reflect.Int; reflect.Int8; reflect.Int16; reflect.Int32; reflect.Int64;
   reflect.Uint; reflect.Uint8; reflect.Uint16; reflect.Uint32; reflect.Uint64;
   reflect.Float32; reflect.Float64;
   reflect.String;
   reflect.Bool;
   reflect.Complex64; reflect.Complex128;
   reflect.Interface].

(** A method that [Call] accepts without arguments. *)
Definition callableWithoutArguments (m : Method) : bool :=
  match m with
  | MkMethod numIn variadic _ =>
    if variadic then (numIn - 1 =? 0)%nat else (numIn =? 0)%nat
  end.

(** The reading of the tag parser in which only the tokens after the first
    are option words. *)
Definition flagsFromSubsequentTokens (tagValue : string) : Z :=
  foldl optionFlag 0 (tail (Split tagValue ",")).

(** The option words and the bits they set. *)
Definition optionBit (opt : string) : option Z :=
  if decide (opt = OPTION_IGNORE) then Some 0
  else if decide (opt = OPTION_OMITEMPTY) then Some 1
  else if decide (opt = OPTION_DIVE) then Some 2
  else if decide (opt = OPTION_WILDCARD) then Some 3
  else if decide (opt = OPTION_DOTTED) then Some 4
  else None.

(** ** Sample records *)

Definition exported (name : string) (tag : StructTag) : StructField :=
  {| Name := name; PkgPath := ""; Tag := tag |}.

(** [struct { C string `json:"c"` }] with [C = "y"]. *)
Definition recordB : value :=
  Val [] (DStruct [(exported "C" [("json", "c")], Val [] (DString "y"))]).

(** [struct { AA string `json:"aa"`; B B `json:"<bTag>"` }] with
    [AA = "x"]. *)
Definition recordA (bTag : string) : value :=
  Val [] (DStruct
    [(exported "AA" [("json", "aa")], Val [] (DString "x"));
     (exported "B" [("json", bTag)], recordB)]).

(** A method [M() (string, interface{})] returning [("custom", 42)]. *)
Definition methodM : Method :=
  MkMethod 0 false
    (Ret [Val [] (DString "custom");
          Val [] (DInterface (Some (Val [] (DInt SizeInt 42))))]).

(** [recordB] as a value of a type that has the method [M]. *)
Definition recordBWithM : value :=
  Val [("M", methodM)]
      (DStruct [(exported "C" [("json", "c")], Val [] (DString "y"))]).

Definition recordWithOverride : value :=
  Val [] (DStruct [(exported "B" [("json", "b")], recordBWithM)]).

(** A method [M(x int) (string, interface{})]: it needs one argument. *)
Definition methodM1 : Method :=
  MkMethod 1 false
    (Ret [Val [] (DString "custom");
          Val [] (DInterface (Some (Val [] (DInt SizeInt 42))))]).

Definition valueWithM1 : value := Val [("M", methodM1)] (DInt SizeInt 7).

(** A method returning three outputs. *)
Definition methodM3 : Method :=
  MkMethod 0 false
    (Ret [Val [] (DString "custom"); Val [] (DInt SizeInt 1); Val [] (DInt SizeInt 2)]).

(** [struct { Tags []string `json:"tags"` }] with [Tags = []string{"a"}]. *)
Definition sliceOfA : value := Val [] (DSlice (Some [Val [] (DString "a")])).

Definition recordWithSlice : value :=
  Val [] (DStruct [(exported "Tags" [("json", "tags")], sliceOfA)]).

(** [struct { F func() `json:"f,omitempty"` }] with [F] not nil. *)
Definition recordWithFunc : value :=
  Val [] (DStruct [(exported "F" [("json", "f,omitempty")], Val [] (DFunc (Some 1%nat)))]).

(** [struct { H Handler `json:"h"` }] where [type Handler func()] has the
    method [M], with [H] not nil. *)
Definition recordWithHandler : value :=
  Val [] (DStruct [(exported "H" [("json", "h")], Val [("M", methodM)] (DFunc (Some 1%nat)))]).


(** Two fields agree for a namespace when they are equally visible and
    carry the same tag value under it; their names and their tags under
    other namespaces may differ. *)
Definition sameDirective (tag : string) (a b : StructField) : Prop :=
  PkgPath a = PkgPath b /\ Lookup (Tag a) tag = Lookup (Tag b) tag.

(** No type met by the conversion of [v] has a method of that name: not
    the type of [v], nor, through the target of a pointer and the fields of
    a struct, the types below it. *)
Fixpoint lacksMethod (name : string) (v : value) : bool :=
  match v with
  | Val ms d =>
    match lookupMethod ms name with
    | Some _ => false
    | None =>
      match d with
      | DPointer (Some x) => lacksMethod name x
      | DStruct fields => forallb (fun '(_, x) => lacksMethod name x) fields
      | _ => true
      end
    end
  end.

(** ** Ranging over a map *)

Section Ranging.
Variable ro : RangeOrder.

Lemma fmap_fst_prod_map (key : string -> string) (l : list (string * any)) :
  (prod_map key id <$> l).*1 = key <$> l.*1.
Proof. induction l as [|[k v] l IH]; simpl; by f_equal. Qed.

Lemma foldl_insert_list_to_map (key : string -> string)
    (l : list (string * any)) (result : MappedStruct) :
  NoDup (key <$> l.*1) ->
  foldl (fun result kv => <[key kv.1 := kv.2]> result) result l
  = list_to_map (prod_map key id <$> l) ∪ result.
Proof.
  revert result. induction l as [|[k v] l IH]; intros result Hnd; simpl.
  - by rewrite (left_id_L ∅ (∪)).
  - simpl in Hnd. apply NoDup_cons in Hnd as [Hk Hnd].
    rewrite IH by done.
    rewrite <- insert_union_l, <- insert_union_r; [done|].
    apply not_elem_of_list_to_map_1.
    by rewrite fmap_fst_prod_map.
Qed.

(** The loop does not depend on the order in which the map is visited. *)
Lemma rangeInto_kmap (key : string -> string) `{!Inj (=) (=) key}
    (deepRes result : MappedStruct) :
  rangeInto ro key (Some deepRes) result = kmap key deepRes ∪ result.
Proof.
  unfold rangeInto.
  assert (Hnd : NoDup (key <$> (rangeOf ro deepRes).*1)).
  { apply (NoDup_fmap_2 _). rewrite (rangeOf_perm ro deepRes).
    apply NoDup_fst_map_to_list. }
  rewrite foldl_insert_list_to_map by done.
  f_equal. unfold kmap. apply list_to_map_proper.
  - by rewrite fmap_fst_prod_map.
  - by rewrite (rangeOf_perm ro deepRes).
Qed.

Lemma rangeInto_nil (key : string -> string) (result : MappedStruct) :
  rangeInto ro key None result = result.
Proof. reflexivity. Qed.

Lemma rangeInto_union (deepRes result : MappedStruct) :
  rangeInto ro (fun k => k) (Some deepRes) result = deepRes ∪ result.
Proof.
  rewrite (rangeInto_kmap (fun k => k)). f_equal.
  apply map_eq. intros k. apply (lookup_kmap (fun k : string => k)).
Qed.
End Ranging.

Lemma rangeInto_order (ro ro' : RangeOrder) (key : string -> string)
    `{!Inj (=) (=) key} (deepRes : option MappedStruct) (result : MappedStruct) :
  rangeInto ro key deepRes result = rangeInto ro' key deepRes result.
Proof.
  destruct deepRes as [m|]; [|done].
  by rewrite !rangeInto_kmap.
Qed.

(** ** Splitting and option flags *)

Lemma Split_cons (s : string) (sep : ascii) :
  exists key rest, Split s sep = key :: rest.
Proof.
  induction s as [|c s (key & rest & IH)]; simpl; [by eauto|].
  case_decide; [by eauto|]. rewrite IH. by eauto.
Qed.

(** Joining the tokens with the separator gives the string back. *)
Lemma Split_concat (s : string) (sep : ascii) :
  String.concat (String.String sep EmptyString) (Split s sep) = s.
Proof.
  induction s as [|c s IH]; simpl; [done|].
  destruct (Split_cons s sep) as (key & rest & Hs).
  rewrite Hs in *. case_decide as Hc.
  - subst c. change (String.concat _ (_ :: key :: rest)) with
      (String.String sep (String.concat (String.String sep "") (key :: rest))).
    by rewrite IH.
  - destruct rest as [|t rest]; simpl in *; by rewrite <- IH.
Qed.

(** No token contains the separator. *)
Lemma Split_no_sep (s : string) (sep : ascii) (t : string) (i : nat) :
  t ∈ Split s sep -> String.get i t <> Some sep.
Proof.
  revert t i. induction s as [|c s IH]; simpl; intros t i Ht.
  - apply list_elem_of_singleton in Ht as ->. by destruct i.
  - destruct (Split_cons s sep) as (key & rest & Hs).
    case_decide as Hc.
    + apply elem_of_cons in Ht as [->|Ht]; [by destruct i|by apply IH].
    + rewrite Hs in *. apply elem_of_cons in Ht as [->|Ht].
      * destruct i as [|i]; simpl; [congruence|].
        apply IH. by left.
      * apply IH. by right.
  Qed.

Lemma hasFlag_bit (flag : Z) (i : Z) :
  0 <= i -> hasFlag flag (Z.shiftl 1 i) = Z.testbit flag i.
Proof.
  intros Hi. unfold hasFlag. rewrite Z.shiftl_1_l.
  destruct (Z.testbit flag i) eqn:Hb.
  - apply negb_true_iff, Z.eqb_neq. intros H0.
    assert (Hi' : Z.testbit (Z.land flag (2 ^ i)) i = true).
    { by rewrite Z.land_spec, Hb, Z.pow2_bits_true. }
    by rewrite H0, Z.bits_0 in Hi'.
  - apply negb_false_iff, Z.eqb_eq, Z.bits_inj'. intros n Hn.
    rewrite Z.land_spec, Z.bits_0.
    destruct (decide (n = i)) as [->|Hne]; [by rewrite Hb|].
    rewrite Z.pow2_bits_false by lia. apply andb_false_r.
Qed.

Lemma optionFlag_optionBit (flag : Z) (opt : string) :
  optionFlag flag opt =
  match optionBit opt with
  | Some i => Z.lor flag (Z.shiftl 1 i)
  | None => flag
  end.
Proof. unfold optionFlag, optionBit. by repeat case_decide. Qed.

Lemma optionBit_range (opt : string) (i : Z) :
  optionBit opt = Some i -> 0 <= i < 5.
Proof. unfold optionBit. repeat case_decide; intros [= <-]; lia. Qed.

Lemma optionFlag_testbit (flag : Z) (opt : string) (n : Z) :
  0 <= n ->
  Z.testbit (optionFlag flag opt) n
  = Z.testbit flag n || bool_decide (optionBit opt = Some n).
Proof.
  intros Hn. rewrite optionFlag_optionBit.
  destruct (optionBit opt) as [i|] eqn:Hopt.
  - apply optionBit_range in Hopt. rewrite Z.lor_spec, Z.shiftl_1_l. f_equal.
    case_bool_decide as Hin.
    + injection Hin as ->. by apply Z.pow2_bits_true.
    + apply Z.pow2_bits_false. congruence.
  - by rewrite bool_decide_eq_false_2, orb_false_r.
Qed.

Lemma foldl_optionFlag_testbit (opts : list string) (flag : Z) (n : Z) :
  0 <= n ->
  Z.testbit (foldl optionFlag flag opts) n
  = Z.testbit flag n || bool_decide (Exists (fun opt => optionBit opt = Some n) opts).
Proof.
  intros Hn. revert flag. induction opts as [|opt opts IH]; intros flag.
  - rewrite bool_decide_eq_false_2, orb_false_r; [done|]. by intros ?%Exists_nil.
  - cbn [foldl]. rewrite IH, optionFlag_testbit by done. rewrite <- orb_assoc. f_equal.
    apply eq_true_iff_eq.
    rewrite orb_true_iff, !bool_decide_eq_true, Exists_cons. tauto.
Qed.

Lemma foldl_optionFlag_nonneg (opts : list string) (flag : Z) :
  0 <= flag -> 0 <= foldl optionFlag flag opts.
Proof.
  revert flag. induction opts as [|opt opts IH]; intros flag Hf; simpl; [done|].
  apply IH. rewrite optionFlag_optionBit.
  destruct (optionBit opt) as [i|] eqn:Hopt; [|done].
  apply optionBit_range in Hopt.
  apply Z.lor_nonneg. split; [done|]. rewrite Z.shiftl_1_l. lia.
Qed.

(** The flags computed from a list of tokens: bit by bit. *)
Lemma foldl_optionFlag_hasFlag (opts : list string) (opt : string) (i : Z) :
  optionBit opt = Some i ->
  hasFlag (foldl optionFlag 0 opts) (Z.shiftl 1 i) = true <-> opt ∈ opts.
Proof.
  intros Hopt. pose proof (optionBit_range _ _ Hopt) as Hi.
  rewrite hasFlag_bit, foldl_optionFlag_testbit, Z.bits_0 by lia. simpl.
  rewrite bool_decide_eq_true, Exists_exists.
  split.
  - intros (opt' & Hin & Hopt'). replace opt with opt'; [done|].
    revert Hopt Hopt'. unfold optionBit.
    repeat case_decide; intros [= <-] [=]; congruence.
  - intros Hin. by exists opt.
Qed.

Lemma foldl_optionFlag_bound (opts : list string) :
  0 <= foldl optionFlag 0 opts < 32.
Proof.
  split; [by apply foldl_optionFlag_nonneg|].
  destruct (decide (foldl optionFlag 0 opts = 0)) as [->|Hne]; [done|].
  pose proof (foldl_optionFlag_nonneg opts 0 ltac:(done)) as Hge.
  apply (Z.log2_lt_pow2 _ 5); [lia|].
  destruct (Z.le_gt_cases 5 (Z.log2 (foldl optionFlag 0 opts))) as [Hle|]; [|lia].
  assert (Hb : Z.testbit (foldl optionFlag 0 opts)
                 (Z.log2 (foldl optionFlag 0 opts)) = true)
    by (apply Z.bit_log2; lia).
  rewrite foldl_optionFlag_testbit, Z.bits_0 in Hb by lia. simpl in Hb.
  apply bool_decide_eq_true, Exists_exists in Hb as (opt & _ & Hopt).
  apply optionBit_range in Hopt. lia.
Qed.

(** The tag parser always returns. *)
Lemma tagsReader_returns (structField : StructField) (tag : string) :
  tagsReader structField tag =
  match Lookup (Tag structField) tag with
  | None => Ret ("", FLAG_IGNORE)
  | Some tagValue =>
      Ret (default "" (head (Split tagValue ",")),
           foldl optionFlag 0 (Split tagValue ","))
  end.
Proof.
  unfold tagsReader. destruct (Lookup _ _) as [tagValue|]; [|done].
  by destruct (Split_cons tagValue ",") as (key & rest & ->).
Qed.

(** ** Induction on values *)

(** Induction that reaches the target of a pointer and the field values of
    a struct, the places where the conversion descends. *)
Lemma value_ind_deep (P : value -> Prop) :
  (forall ms d,
      (forall x, d = DPointer (Some x) -> P x) ->
      (forall fields, d = DStruct fields -> Forall (fun fv => P fv.2) fields) ->
      P (Val ms d)) ->
  forall v, P v.
Proof.
  intros H. fix IH 1. intros [ms d]. apply H.
  - destruct d as [| | | | | | | | | | | | |[x0|]| |]; intros x [=]. subst x. apply IH.
  - destruct d as [| | | | | | | | | | | | | | |fs]; intros fields [=]. subst fields.
    induction fs as [|[ft fv] fs IHfs]; constructor; [apply IH|apply IHfs].
Qed.

(** ** The field loop *)

Section FieldLoopFacts.
Variable body : MappedStruct -> StructField -> value -> flow.

Lemma forFields_app (l1 l2 : list (StructField * value)) (result : MappedStruct) :
  forFields body (l1 ++ l2) result =
  match forFields body l1 result with
  | Continue result1 => forFields body l2 result1
  | other => other
  end.
Proof.
  revert result. induction l1 as [|[ft fv] l1 IH]; intros result; simpl; [done|].
  by destruct (body result ft fv).
Qed.

(** A field on which the body changes nothing may be removed. *)
Lemma forFields_skip (l1 l2 : list (StructField * value))
    (ft : StructField) (fv : value) (result : MappedStruct) :
  (forall result1, body result1 ft fv = Continue result1) ->
  forFields body (l1 ++ (ft, fv) :: l2) result = forFields body (l1 ++ l2) result.
Proof.
  intros Hskip. rewrite !forFields_app.
  destruct (forFields body l1 result); [|done..].
  simpl. by rewrite Hskip.
Qed.

Lemma forFields_ext (body' : MappedStruct -> StructField -> value -> flow)
    (fields : list (StructField * value)) (result : MappedStruct) :
  Forall (fun fv => forall result1, body result1 fv.1 fv.2 = body' result1 fv.1 fv.2)
         fields ->
  forFields body fields result = forFields body' fields result.
Proof.
  intros Hall. revert result.
  induction Hall as [|[ft fv] fields Hhd _ IH]; intros result; simpl; [done|].
  simpl in Hhd. rewrite Hhd. by destruct (body' result ft fv).
Qed.

(** The loop returns only what some iteration returned. *)
Lemma forFields_Return (Q : returned -> Prop)
    (fields : list (StructField * value)) (result : MappedStruct) (r : returned) :
  Forall (fun fv => forall result1 r1, body result1 fv.1 fv.2 = Return r1 -> Q r1)
         fields ->
  forFields body fields result = Return r -> Q r.
Proof.
  intros Hall. revert result.
  induction Hall as [|[ft fv] fields Hhd _ IH]; intros result; simpl; [done|].
  destruct (body result ft fv) eqn:Hb; [by apply IH| |done].
  intros [= <-]. by eapply Hhd.
Qed.
End FieldLoopFacts.

(** ** Unfolding the conversion *)

Lemma StructToMapOf_unfold (ro : RangeOrder) (tag method : string) (v : value) :
  StructToMapOf ro tag method v =
  match resolved v with
  | None => Ret (None, Some (ErrNilPointer (Kind v)))
  | Some rv =>
    match dataOf rv with
    | DStruct fields =>
        returnAfter
          (forFields (fieldBody ro (StructToMapOf ro tag method) tag method)
                     fields ∅)
    | _ => Ret (None, Some (ErrNotStruct (Kind rv)))
    end
  end.
Proof.
  destruct v as [ms d].
  destruct d as [|sz ?|sz ?| |sz ?|sz ? ?| | | | | | | |[[ms' d']|]| |];
    try reflexivity; by destruct sz.
Qed.

Lemma StructToMapOf_struct (ro : RangeOrder) (tag method : string)
    (ms : list (string * Method)) (fields : list (StructField * value)) :
  StructToMapOf ro tag method (Val ms (DStruct fields)) =
  returnAfter
    (forFields (fieldBody ro (StructToMapOf ro tag method) tag method) fields ∅).
Proof. reflexivity. Qed.

Lemma resolved_cases (ms : list (string * Method)) (d : data) :
  resolved (Val ms d) =
  match d with
  | DPointer None => None
  | DPointer (Some x) => Some x
  | _ => Some (Val ms d)
  end.
Proof.
  destruct d as [|sz ?|sz ?| |sz ?|sz ? ?| | | | | | | |[x|]| |];
    try done; by destruct sz.
Qed.

Lemma resolved_struct (rv : value) (fields : list (StructField * value)) :
  dataOf rv = DStruct fields -> resolved rv = Some rv.
Proof. destruct rv as [ms d]. simpl. by intros ->. Qed.

(** Converting a pointer to a struct is converting the struct. *)
Lemma StructToMapOf_resolved (ro : RangeOrder) (tag method : string)
    (v rv : value) (fields : list (StructField * value)) :
  resolved v = Some rv -> dataOf rv = DStruct fields ->
  StructToMapOf ro tag method v = StructToMapOf ro tag method rv.
Proof.
  intros Hv Hrv. rewrite !StructToMapOf_unfold.
  by rewrite Hv, (resolved_struct _ _ Hrv).
Qed.

(** ** The body of the loop *)

Lemma fieldBody_unexported ro self tag method result fieldType fieldValue :
  PkgPath fieldType <> "" ->
  fieldBody ro self tag method result fieldType fieldValue = Continue result.
Proof. intros Hp. unfold fieldBody. by rewrite bool_decide_eq_false_2. Qed.

Lemma fieldBody_ignored ro self tag method result fieldType fieldValue tagVal flag :
  tagsReader fieldType tag = Ret (tagVal, flag) ->
  hasFlag flag FLAG_IGNORE = true ->
  fieldBody ro self tag method result fieldType fieldValue = Continue result.
Proof.
  intros Ht Hf. unfold fieldBody. rewrite Ht, Hf. by case_bool_decide.
Qed.

Lemma fieldBody_omitted ro self tag method result fieldType fieldValue tagVal flag :
  tagsReader fieldType tag = Ret (tagVal, flag) ->
  hasFlag flag FLAG_OMITEMPTY = true -> IsZero fieldValue = true ->
  fieldBody ro self tag method result fieldType fieldValue = Continue result.
Proof.
  intros Ht Hf Hz. unfold fieldBody. rewrite Ht, Hf, Hz.
  case_bool_decide; simpl; [|done]. by destruct (hasFlag flag FLAG_IGNORE).
Qed.

Lemma fieldBody_nil_pointer ro self tag method result fieldType fieldValue :
  resolved fieldValue = None ->
  fieldBody ro self tag method result fieldType fieldValue = Continue result.
Proof.
  intros Hr. unfold fieldBody. rewrite tagsReader_returns.
  case_bool_decide; simpl; [|done].
  destruct (Lookup _ _); [|done].
  destruct (hasFlag _ FLAG_IGNORE); [done|].
  destruct (hasFlag _ FLAG_OMITEMPTY && _); [done|].
  unfold resolved in Hr. case_bool_decide; [|done].
  by destruct (IsNil fieldValue).
Qed.

(** A field that reaches the override hook is handed to [dispatch]. *)
Lemma fieldBody_dispatch ro self tag method result fieldType fieldValue tagVal flag fv :
  reachesOverride tag fieldType fieldValue tagVal flag fv ->
  fieldBody ro self tag method result fieldType fieldValue
  = dispatch ro self method tagVal flag result fv.
Proof.
  intros (Hp & Ht & Hi & Ho & Hr). unfold fieldBody, resolved in *.
  rewrite Hp, Ht, Hi, Ho. simpl.
  case_bool_decide; simpl.
  - destruct (IsNil fieldValue); [done|]. by injection Hr as ->.
  - by injection Hr as ->.
Qed.

(** A field that reaches generic dispatch is handed to the kind switch. *)
Lemma fieldBody_kindSwitch ro self tag method result fieldType fieldValue tagVal flag fv :
  reachesGenericDispatch tag method fieldType fieldValue tagVal flag fv ->
  fieldBody ro self tag method result fieldType fieldValue
  = kindSwitch ro self tagVal flag result fv.
Proof.
  intros [Hreach [value Hhook]].
  rewrite (fieldBody_dispatch _ _ _ _ _ _ _ _ _ _ Hreach).
  unfold dispatch. by rewrite Hhook.
Qed.

(** ** The override hook *)

Lemma callFunc_error reflectedValue method key value err :
  callFunc reflectedValue method = Ret (key, value, Some err) ->
  key = "" /\ value = ANil /\ errorKind err = InvalidOverrideSignature.
Proof.
  unfold callFunc. destruct (MethodByName _ _) as [m|]; [|done].
  destruct (_ && _); [done|]. destruct (Call m) as [results|]; [|done].
  destruct (negb _); [by intros [= <- <- <-]|].
  destruct results as [|r0 [|r1 rest]]; [done..|].
  destruct (negb _); [by intros [= <- <- <-]|done].
Qed.

Lemma assignValueWithMethod_error reflectedValue method key value err :
  assignValueWithMethod reflectedValue method = Ret (key, value, Some err) ->
  key = "" /\ value = ANil /\ errorKind err = InvalidOverrideSignature.
Proof.
  unfold assignValueWithMethod. case_decide; [done|].
  destruct (MethodByName _ _) as [m|]; [|done].
  destruct (callFunc _ _) as [[[k v] [e|]]|] eqn:Hc; [|done..].
  intros [= <- <- <-]. by apply callFunc_error in Hc as (_ & _ & ?).
Qed.

(** With no method name the hook does nothing. *)
Lemma assignValueWithMethod_disabled reflectedValue :
  assignValueWithMethod reflectedValue "" = Ret ("", ANil, None).
Proof. reflexivity. Qed.

(** ** What an iteration can return *)

Lemma kindSwitch_Return ro self tagVal flag result fv r :
  kindSwitch ro self tagVal flag result fv = Return r ->
  exists e m fields,
    r = (None, Some e) /\ dataOf fv = DStruct fields /\ self fv = Ret (m, Some e).
Proof.
  unfold kindSwitch. destruct (dataOf fv) eqn:Hd; try done.
  - by destruct (hasFlag _ _).
  - destruct (self fv) as [[m [e|]]|]; [|by repeat destruct (hasFlag _ _)|done].
    intros [= <-]. by eexists _, _, _.
Qed.

Lemma dispatch_Return ro self method tagVal flag result fv r :
  dispatch ro self method tagVal flag result fv = Return r ->
  exists e, r = (None, Some e) /\
    (errorKind e = InvalidOverrideSignature
     \/ exists m fields, dataOf fv = DStruct fields /\ self fv = Ret (m, Some e)).
Proof.
  unfold dispatch.
  destruct (assignValueWithMethod fv method) as [[[key value] [err|]]|] eqn:Hh; [| |done].
  - intros [= <-]. apply assignValueWithMethod_error in Hh as (_ & _ & ?). by eauto.
  - destruct (negb _); [done|].
    intros (e & m & fields & -> & ? & ?)%kindSwitch_Return. by eauto 8.
Qed.

Lemma fieldBody_Return ro self tag method result fieldType fieldValue r :
  fieldBody ro self tag method result fieldType fieldValue = Return r ->
  exists e, r = (None, Some e) /\
    (errorKind e = InvalidOverrideSignature
     \/ exists fv m fields,
          resolved fieldValue = Some fv /\ dataOf fv = DStruct fields
          /\ self fv = Ret (m, Some e)).
Proof.
  unfold fieldBody, resolved.
  destruct (negb _); [done|].
  destruct (tagsReader _ _) as [[tagVal flag]|]; [|done].
  destruct (hasFlag _ FLAG_IGNORE); [done|].
  destruct (_ && IsZero _); [done|].
  case_bool_decide; simpl.
  - destruct (IsNil fieldValue); [done|].
    intros (e & -> & [?|(m & fields & ? & ?)])%dispatch_Return; by eauto 10.
  - intros (e & -> & [?|(m & fields & ? & ?)])%dispatch_Return; by eauto 10.
Qed.

(** ** The order of map iteration does not matter *)

Lemma kindSwitch_ext ro ro' self self' tagVal flag result fv :
  (forall fields, dataOf fv = DStruct fields -> self fv = self' fv) ->
  kindSwitch ro self tagVal flag result fv = kindSwitch ro' self' tagVal flag result fv.
Proof.
  intros Hself. unfold kindSwitch. destruct (dataOf fv) eqn:Hd; try done.
  rewrite <- (Hself _ eq_refl).
  destruct (self fv) as [[deepRes [e|]]|]; [done| |done].
  rewrite (rangeInto_order ro ro' (fun k => k)).
  by rewrite (rangeInto_order ro ro' (fun k => (tagVal +:+ ".") +:+ k)).
Qed.

Lemma dispatch_ext ro ro' self self' method tagVal flag result fv :
  (forall fields, dataOf fv = DStruct fields -> self fv = self' fv) ->
  dispatch ro self method tagVal flag result fv
  = dispatch ro' self' method tagVal flag result fv.
Proof.
  intros Hself. unfold dispatch.
  destruct (assignValueWithMethod fv method) as [[[key value] [err|]]|]; [done| |done].
  destruct (negb _); [done|]. by apply kindSwitch_ext.
Qed.

Lemma fieldBody_ext ro ro' self self' tag method result fieldType fieldValue :
  (forall fv fields, resolved fieldValue = Some fv -> dataOf fv = DStruct fields ->
                     self fv = self' fv) ->
  fieldBody ro self tag method result fieldType fieldValue
  = fieldBody ro' self' tag method result fieldType fieldValue.
Proof.
  intros Hself. unfold fieldBody. unfold resolved in Hself.
  destruct (negb _); [done|].
  destruct (tagsReader _ _) as [[tagVal flag]|]; [|done].
  destruct (hasFlag _ FLAG_IGNORE); [done|].
  destruct (_ && IsZero _); [done|].
  case_bool_decide; simpl.
  - destruct (IsNil fieldValue); [done|]. apply dispatch_ext. by eauto.
  - apply dispatch_ext. by eauto.
Qed.

Lemma StructToMapOf_order (ro ro' : RangeOrder) (tag method : string) (v : value) :
  StructToMapOf ro tag method v = StructToMapOf ro' tag method v.
Proof.
  induction v as [ms d IHptr IHfields] using value_ind_deep.
  destruct d as [|sz ?|sz ?| |sz ?|sz ? ?| | | | | | | |[x|]| |fields];
    try done; try (by destruct sz).
  - (* a pointer: to a struct, or to something else *)
    specialize (IHptr x eq_refl). destruct x as [ms' d'].
    destruct d' as [|sz ?|sz ?| |sz ?|sz ? ?| | | | | | | | | |];
      try done; by destruct sz.
  - (* a struct *)
    specialize (IHfields fields eq_refl). rewrite !StructToMapOf_struct. f_equal.
    apply forFields_ext. eapply Forall_impl; [exact IHfields|].
    intros [ft fvl] Heq result. simpl in *. apply fieldBody_ext.
    intros fv fs Hfv Hfs.
    by rewrite <- !(StructToMapOf_resolved _ _ _ fvl fv fs).
Qed.

(** ** Errors of the conversion *)

(** What the loop returns early is an error with the nil map. *)
Lemma forFields_fieldBody_Return ro self tag method fields result r :
  forFields (fieldBody ro self tag method) fields result = Return r ->
  exists e, r = (None, Some e).
Proof.
  apply (forFields_Return _ (fun r => exists e, r = (None, Some e))).
  apply Forall_forall. intros [ft fvl] _ result1 r1 Hb.
  apply fieldBody_Return in Hb as (e & -> & _). by eauto.
Qed.

(** Either the nil map with an error, or a map with the nil error. *)
Lemma StructToMapOf_returned ro tag method v m e :
  StructToMapOf ro tag method v = Ret (m, e) ->
  (m = None /\ is_Some e) \/ (is_Some m /\ e = None).
Proof.
  rewrite StructToMapOf_unfold.
  destruct (resolved v) as [rv|]; [|intros [= <- <-]; by left].
  destruct (dataOf rv); try (intros [= <- <-]; by left).
  destruct (forFields _ _ _) as [result|r|] eqn:Hloop; simpl; [| |done].
  - intros [= <- <-]. by right.
  - apply forFields_fieldBody_Return in Hloop as (e' & ->).
    intros [= <- <-]. by left.
Qed.

(** An error that arises inside the loop, at any depth, comes from the
    override hook. *)
Lemma StructToMapOf_loop_error ro tag method v :
  forall rv fields m e,
    resolved v = Some rv -> dataOf rv = DStruct fields ->
    StructToMapOf ro tag method rv = Ret (m, Some e) ->
    errorKind e = InvalidOverrideSignature.
Proof.
  induction v as [ms d IHptr IHfields] using value_ind_deep.
  intros rv fields m e Hrv Hd. rewrite resolved_cases in Hrv.
  destruct d as [| | | | | | | | | | | | |[x|]| |fs]; try (by simplify_eq/=).
  - (* a pointer to a struct *)
    injection Hrv as ->.
    apply (IHptr rv eq_refl rv fields m e); [|done].
    by eapply resolved_struct.
  - (* a struct *)
    injection Hrv as <-. simpl in Hd. injection Hd as ->.
    specialize (IHfields fields eq_refl).
    rewrite StructToMapOf_struct.
    destruct (forFields _ _ _) as [result|r|] eqn:Hloop; simpl; [done| |done].
    intros [= ->].
    refine (forFields_Return _
      (fun r => forall m e, r = (m, Some e) -> errorKind e = InvalidOverrideSignature)
      _ _ _ _ Hloop m e eq_refl).
    eapply Forall_impl; [exact IHfields|].
    intros [ft fvl] IH result1 r1 Hb m1 e1 ->. simpl in *.
    apply fieldBody_Return in Hb as (e' & [= -> ->] & [?|(fv & m' & fs & ? & ? & ?)]);
      [done|]. by eapply IH.
Qed.

Lemma StructToMapOf_errorKind ro tag method v m e :
  StructToMapOf ro tag method v = Ret (m, Some e) ->
  match resolved v with
  | None => e = ErrNilPointer (Kind v)
  | Some rv =>
    match dataOf rv with
    | DStruct _ => errorKind e = InvalidOverrideSignature
    | _ => e = ErrNotStruct (Kind rv)
    end
  end.
Proof.
  intros Hs. pose proof Hs as Hs'. rewrite StructToMapOf_unfold in Hs'.
  destruct (resolved v) as [rv|] eqn:Hrv; [|congruence].
  destruct (dataOf rv) eqn:Hd; try congruence.
  eapply StructToMapOf_loop_error; [exact Hrv|exact Hd|].
  by rewrite <- (StructToMapOf_resolved _ _ _ v rv fields).
Qed.

(** A field on which the body changes nothing may be removed from the
    record. *)
Lemma StructToMap_skip ro tag method ms l1 l2 fieldType fieldValue :
  (forall self result,
      fieldBody ro self tag method result fieldType fieldValue = Continue result) ->
  StructToMap ro (Some (Val ms (DStruct (l1 ++ (fieldType, fieldValue) :: l2)))) tag method
  = StructToMap ro (Some (Val ms (DStruct (l1 ++ l2)))) tag method.
Proof.
  intros Hskip. unfold StructToMap. rewrite !StructToMapOf_struct.
  by rewrite forFields_skip.
Qed.

Lemma resolvedKind_nil (data : option value) :
  resolvedKind data = None <-> exists ms, data = Some (Val ms (DPointer None)).
Proof.
  destruct data as [[ms d]|]; simpl; [|split; [done|by intros [? ?]]].
  rewrite resolved_cases. split.
  - destruct d as [| | | | | | | | | | | | |[x|]| |]; try done. by eauto.
  - by intros [ms' [= -> ->]].
Qed.

(** * Properties of the conversion *)

(** C4: the conversion fails with NilInput exactly when the input is a nil
    pointer, and with NotARecord exactly when the input, after at most one
    dereference, is not a struct. Whenever an error is returned the returned
    map is nil. An iteration that returns ends the whole call with what it
    returned, whatever fields follow; the error of a nested conversion and
    the error of a malformed override method are returned as they are. *)
Theorem StructToMap_failure (ro : RangeOrder) (data : option value)
    (tag method : string) :
  ((exists m e, StructToMap ro data tag method = Ret (m, Some e)
                /\ errorKind e = NilInput)
   <-> exists ms, data = Some (Val ms (DPointer None)))
  /\ ((exists m e, StructToMap ro data tag method = Ret (m, Some e)
                   /\ errorKind e = NotARecord)
      <-> exists k, resolvedKind data = Some k /\ k <> reflect.Struct)
  /\ (forall m e, StructToMap ro data tag method = Ret (m, Some e) -> m = None)
  /\ (forall ms l1 l2 fieldType fieldValue result1 r,
        data = Some (Val ms (DStruct (l1 ++ (fieldType, fieldValue) :: l2))) ->
        forFields (fieldBody ro (StructToMapOf ro tag method) tag method) l1 ∅
          = Continue result1 ->
        fieldBody ro (StructToMapOf ro tag method) tag method
                  result1 fieldType fieldValue = Return r ->
        StructToMap ro data tag method = Ret r /\ exists e, r = (None, Some e))
  /\ (forall result fieldType fieldValue tagVal flag nested fields m e,
        reachesGenericDispatch tag method fieldType fieldValue tagVal flag nested ->
        dataOf nested = DStruct fields ->
        StructToMapOf ro tag method nested = Ret (m, Some e) ->
        fieldBody ro (StructToMapOf ro tag method) tag method
                  result fieldType fieldValue = Return (None, Some e))
  /\ (forall self result fieldType fieldValue tagVal flag fv key value e,
        reachesOverride tag fieldType fieldValue tagVal flag fv ->
        assignValueWithMethod fv method = Ret (key, value, Some e) ->
        fieldBody ro self tag method result fieldType fieldValue
          = Return (None, Some e)
        /\ errorKind e = InvalidOverrideSignature).
Proof.
  split_and!.
  - rewrite <- resolvedKind_nil. destruct data as [v|]; simpl.
    + split.
      * intros (m & e & Hs & Hk). apply StructToMapOf_errorKind in Hs.
        destruct (resolved v) as [rv|]; [|done].
        destruct (dataOf rv); by simplify_eq/=; try congruence.
      * intros Hr%fmap_None. exists None, (ErrNilPointer (Kind v)).
        by rewrite StructToMapOf_unfold, Hr.
    + split; [|done]. by intros (m & e & [= <- <-] & Hk).
  - destruct data as [v|]; simpl.
    + split.
      * intros (m & e & Hs & Hk). apply StructToMapOf_errorKind in Hs.
        destruct (resolved v) as [rv|]; [|by subst e]. exists (Kind rv).
        split; [done|]. destruct rv as [ms d].
        destruct d; simpl in *; try done; try (by destruct sz); congruence.
      * intros (k & Hr & Hk). apply fmap_Some in Hr as (rv & Hr & ->).
        exists None, (ErrNotStruct (Kind rv)).
        rewrite StructToMapOf_unfold, Hr. destruct rv as [ms d].
        by destruct d.
    + split; [by eauto|]. intros _. by eexists _, _.
  - intros m e Hs. destruct data as [v|]; [|by injection Hs as <-].
    apply StructToMapOf_returned in Hs as [[? _]|[_ ?]]; done.
  - intros ms l1 l2 fieldType fieldValue result1 r -> Hl1 Hb. unfold StructToMap.
    rewrite StructToMapOf_struct, forFields_app, Hl1. simpl. rewrite Hb.
    split; [done|]. apply fieldBody_Return in Hb as (e & -> & _). by eauto.
  - intros result fieldType fieldValue tagVal flag nested fields m e Hreach Hd Hs.
    rewrite (fieldBody_kindSwitch _ _ _ _ _ _ _ _ _ _ Hreach).
    unfold kindSwitch. by rewrite Hd, Hs.
  - intros self result fieldType fieldValue tagVal flag fv key value e Hreach Hh.
    rewrite (fieldBody_dispatch _ _ _ _ _ _ _ _ _ _ Hreach).
    unfold dispatch. rewrite Hh. split; [done|].
    by apply assignValueWithMethod_error in Hh as (_ & _ & ?).
Qed.

Lemma StructToMap_failure_witness :
  exists m e,
    StructToMap keyOrder (Some (Val [] (DPointer None))) "json" "" = Ret (m, Some e)
    /\ errorKind e = NilInput.
Proof.
  apply (proj1 (StructToMap_failure keyOrder (Some (Val [] (DPointer None))) "json" "")).
  exists []. reflexivity.
Defined.

(** X19: the outcome does not depend on the order in which the maps of
    nested results are ranged over, which the language leaves open: under
    any two orders the call returns the same container (same keys, same
    values), the same error or the same panic. *)
Theorem StructToMap_deterministic (ro ro' : RangeOrder) (data : option value)
    (tag method : string) :
  StructToMap ro data tag method = StructToMap ro' data tag method.
Proof.
  destruct data as [v|]; [|done]. apply StructToMapOf_order.
Qed.

(** C7: a field that is unexported, or has no tag under the namespace, or
    has [-] among the tokens of its tag (its directive has the Ignore flag),
    leaves the container as it is whatever its value and its other flags,
    and the conversion of a record is the conversion of the record without
    that field. *)
Theorem ignored_field_no_key (ro : RangeOrder) (tag method : string)
    (fieldType : StructField) (fieldValue : value) :
  (PkgPath fieldType <> ""
   \/ Lookup (Tag fieldType) tag = None
   \/ (exists tagValue, Lookup (Tag fieldType) tag = Some tagValue
                        /\ OPTION_IGNORE ∈ Split tagValue ",")
   \/ (exists tagVal flag, tagsReader fieldType tag = Ret (tagVal, flag)
                           /\ hasFlag flag FLAG_IGNORE = true)) ->
  (forall self result,
      fieldBody ro self tag method result fieldType fieldValue = Continue result)
  /\ (forall ms l1 l2,
        StructToMap ro (Some (Val ms (DStruct (l1 ++ (fieldType, fieldValue) :: l2))))
                    tag method
        = StructToMap ro (Some (Val ms (DStruct (l1 ++ l2)))) tag method).
Proof.
  intros Hcase.
  assert (Hskip : forall self result,
    fieldBody ro self tag method result fieldType fieldValue = Continue result).
  { intros self result.
    destruct Hcase as [Hp|[Hn|[(tagValue & Hl & Hin)|(tagVal & flag & Ht & Hf)]]].
    - by apply fieldBody_unexported.
    - eapply fieldBody_ignored; [by rewrite tagsReader_returns, Hn|done].
    - eapply fieldBody_ignored; [by rewrite tagsReader_returns, Hl|].
      by apply (foldl_optionFlag_hasFlag _ OPTION_IGNORE 0).
    - by eapply fieldBody_ignored. }
  split; [done|]. intros ms l1 l2. by apply StructToMap_skip.
Qed.

Lemma ignored_field_no_key_witness :
  StructToMap keyOrder
    (Some (Val [] (DStruct ([] ++ (exported "X" [("json", "x,-")], Val [] (DInt SizeInt 5))
                               :: [(exported "C" [("json", "c")], Val [] (DString "y"))]))))
    "json" ""
  = StructToMap keyOrder (Some recordB) "json" "".
Proof.
  apply (ignored_field_no_key keyOrder "json" ""
           (exported "X" [("json", "x,-")]) (Val [] (DInt SizeInt 5))).
  right. right. right. exists "x", 1. split; reflexivity.
Defined.

(** C2, as the code has it: without the namespace the parser returns the
    empty key and the Ignore flag. Otherwise the tag value is split on
    commas, the first token is the key, and each of the five flags is set
    exactly when its option word occurs, with the same case, among the
    tokens, the first token included; no other bit is ever set and the
    parser always returns. *)
Theorem tagsReader_directive (structField : StructField) (tag : string) :
  match Lookup (Tag structField) tag with
  | None => tagsReader structField tag = Ret ("", FLAG_IGNORE)
  | Some tagValue =>
    exists key rest flag,
      Split tagValue "," = key :: rest
      /\ String.concat "," (key :: rest) = tagValue
      /\ (forall t i, t ∈ key :: rest -> String.get i t <> Some ","%char)
      /\ tagsReader structField tag = Ret (key, flag)
      /\ (hasFlag flag FLAG_IGNORE = true <-> OPTION_IGNORE ∈ key :: rest)
      /\ (hasFlag flag FLAG_OMITEMPTY = true <-> OPTION_OMITEMPTY ∈ key :: rest)
      /\ (hasFlag flag FLAG_DIVE = true <-> OPTION_DIVE ∈ key :: rest)
      /\ (hasFlag flag FLAG_WILDCARD = true <-> OPTION_WILDCARD ∈ key :: rest)
      /\ (hasFlag flag FLAG_DOTTED = true <-> OPTION_DOTTED ∈ key :: rest)
      /\ 0 <= flag < 32
  end.
Proof.
  rewrite tagsReader_returns. destruct (Lookup _ _) as [tagValue|]; [|done].
  destruct (Split_cons tagValue ",") as (key & rest & Hs).
  exists key, rest, (foldl optionFlag 0 (key :: rest)).
  pose proof (Split_concat tagValue ",") as Hc.
  pose proof (fun t i => Split_no_sep tagValue "," t i) as Hn.
  rewrite Hs in *. split_and!; try done.
  - by apply (foldl_optionFlag_hasFlag _ OPTION_IGNORE 0).
  - by apply (foldl_optionFlag_hasFlag _ OPTION_OMITEMPTY 1).
  - by apply (foldl_optionFlag_hasFlag _ OPTION_DIVE 2).
  - by apply (foldl_optionFlag_hasFlag _ OPTION_WILDCARD 3).
  - by apply (foldl_optionFlag_hasFlag _ OPTION_DOTTED 4).
  - apply foldl_optionFlag_bound.
  - apply foldl_optionFlag_bound.
Qed.

(** C2, as stated, fails on the tag [json:"-"]: its only token is the key,
    no token follows it, and the Ignore flag is set. *)
Lemma tagsReader_first_token_counterexample :
  tagsReader (exported "X" [("json", "-")]) "json" = Ret ("-", FLAG_IGNORE)
  /\ tail (Split "-" ",") = []
  /\ tagsReader (exported "X" [("json", "-")]) "json"
     <> Ret ("-", flagsFromSubsequentTokens "-").
Proof. split_and!; [reflexivity|reflexivity|discriminate]. Qed.

(** X18: for a field that reaches generic dispatch the value written at the
    tag key follows the kind of the resolved field value: a slice, array,
    map or channel is stored as the [reflect.Value] handle of that very
    value, not as the value;
    integers, unsigned integers, floats and complex numbers are stored with
    the same numeric value at 64 bits (a pair of 64-bit floats for complex);
    a boolean is stored unchanged; a string is stored between two [%] when
    the Wildcard flag is set and unchanged otherwise; an interface value is
    stored as what it holds. *)
Theorem generic_dispatch_values (ro : RangeOrder)
    (self : value -> outcome returned) (tag method : string)
    (result : MappedStruct) (fieldType : StructField) (fieldValue : value)
    (tagVal : string) (flag : Z) (fv : value) :
  reachesGenericDispatch tag method fieldType fieldValue tagVal flag fv ->
  match dataOf fv with
  | DSlice _ | DArray _ | DMap _ | DChan _ =>
      fieldBody ro self tag method result fieldType fieldValue
      = Continue (<[tagVal := AReflectValue fv]> result)
  | DInt _ n =>
      fieldBody ro self tag method result fieldType fieldValue
      = Continue (<[tagVal := int64 n]> result)
  | DUint _ n =>
      fieldBody ro self tag method result fieldType fieldValue
      = Continue (<[tagVal := uint64 n]> result)
  | DFloat _ f =>
      fieldBody ro self tag method result fieldType fieldValue
      = Continue (<[tagVal := float64 f]> result)
  | DComplex _ re im =>
      fieldBody ro self tag method result fieldType fieldValue
      = Continue (<[tagVal := complex128 re im]> result)
  | DBool b =>
      fieldBody ro self tag method result fieldType fieldValue
      = Continue (<[tagVal := gobool b]> result)
  | DString s =>
      fieldBody ro self tag method result fieldType fieldValue
      = Continue (<[tagVal := gostring (if hasFlag flag FLAG_WILDCARD
                                        then ("%" +:+ s) +:+ "%" else s)]> result)
  | DInterface content =>
      fieldBody ro self tag method result fieldType fieldValue
      = Continue (<[tagVal := match content with
                              | Some x => AGo x
                              | None => ANil
                              end]> result)
  | _ => True
  end.
Proof.
  intros Hreach. rewrite (fieldBody_kindSwitch _ _ _ _ _ _ _ _ _ _ Hreach).
  unfold kindSwitch. destruct fv as [ms d]. simpl.
  destruct d as [| | | | | | | | | | | | | |[x|]|]; try done.
  by destruct (hasFlag flag FLAG_WILDCARD).
Qed.

Lemma generic_dispatch_values_witness :
  fieldBody keyOrder (StructToMapOf keyOrder "json" "") "json" "" ∅
            (exported "S" [("json", "s,wildcard")]) (Val [] (DString "abc"))
  = Continue (<["s" := gostring "%abc%"]> ∅).
Proof.
  apply (generic_dispatch_values keyOrder (StructToMapOf keyOrder "json" "")
           "json" "" ∅ (exported "S" [("json", "s,wildcard")])
           (Val [] (DString "abc")) "s" 8 (Val [] (DString "abc"))).
  split; [repeat split; reflexivity|]. exists ANil. reflexivity.
Defined.

(** C3: a slice field is not stored as a value equal to the field value.
    The container case assigns the reflection handle ([result[tagVal] =
    fieldValue]), so the map holds a [reflect.Value]; the value itself, as
    [fieldValue.Interface()] gives it and as the other cases store theirs,
    is something else. *)
Lemma container_stored_as_handle :
  StructToMap keyOrder (Some recordWithSlice) "json" ""
  = Ret (Some {["tags" := AReflectValue sliceOfA]}, None)
  /\ Interface sliceOfA = AGo sliceOfA
  /\ AReflectValue sliceOfA <> AGo sliceOfA.
Proof. split_and!; [vm_compute; reflexivity|reflexivity|discriminate]. Qed.

(** ** Composition of nested records *)

Lemma rangeInto_dive_lookup ro (deepRes result : MappedStruct) (k : string) :
  rangeInto ro (fun k => k) (Some deepRes) result !! k
  = match deepRes !! k with
    | Some v => Some v
    | None => result !! k
    end.
Proof.
  rewrite rangeInto_union, lookup_union. by destruct (deepRes !! k), (result !! k).
Qed.

Lemma rangeInto_dotted_lookup ro (prefix : string) (deepRes result : MappedStruct)
    (k : string) (v : any) :
  deepRes !! k = Some v ->
  rangeInto ro (fun k => prefix +:+ k) (Some deepRes) result !! (prefix +:+ k) = Some v.
Proof.
  intros Hk. rewrite (rangeInto_kmap ro (fun k => prefix +:+ k)).
  apply lookup_union_Some_l.
  by rewrite (lookup_kmap (fun k => prefix +:+ k)).
Qed.

Lemma rangeInto_dotted_other ro (prefix : string) (deepRes result : MappedStruct)
    (j : string) :
  (forall k, is_Some (deepRes !! k) -> j <> prefix +:+ k) ->
  rangeInto ro (fun k => prefix +:+ k) (Some deepRes) result !! j = result !! j.
Proof.
  intros Hj. rewrite (rangeInto_kmap ro (fun k => prefix +:+ k)).
  apply lookup_union_r.
  apply (lookup_kmap_None (fun k => prefix +:+ k)). intros k ->.
  destruct (deepRes !! k) eqn:Hk; [|done].
  by destruct (Hj k ltac:(by rewrite Hk)).
Qed.

(** C1, as the code has it: a nested record field that reaches generic
    dispatch is converted by the conversion itself, with the same namespace
    and method name, and its result is composed by the flags of the field.
    With Dive set every nested key is written directly into the parent
    container, over what was there. With Dotted set and Dive not set every
    nested key [k] is written at the parent key, a dot, then [k], and no
    other key changes. With neither flag the nested result is one value at
    the parent key. The two-field record with tag [b,dive] gives
    [aa -> x, c -> y], and with tag [b,dotted] gives [aa -> x, b.c -> y]. *)
Theorem nested_record_composition (ro : RangeOrder) (tag method : string) :
  (forall result fieldType fieldValue tagVal flag nested fields deepRes,
      reachesGenericDispatch tag method fieldType fieldValue tagVal flag nested ->
      dataOf nested = DStruct fields ->
      StructToMapOf ro tag method nested = Ret (Some deepRes, None) ->
      exists result',
        fieldBody ro (StructToMapOf ro tag method) tag method
                  result fieldType fieldValue = Continue result'
        /\ (hasFlag flag FLAG_DIVE = true ->
            forall k, result' !! k = match deepRes !! k with
                                     | Some v => Some v
                                     | None => result !! k
                                     end)
        /\ (hasFlag flag FLAG_DIVE = false -> hasFlag flag FLAG_DOTTED = true ->
            (forall k v, deepRes !! k = Some v ->
                         result' !! ((tagVal +:+ ".") +:+ k) = Some v)
            /\ (forall j, (forall k, is_Some (deepRes !! k) ->
                                     j <> (tagVal +:+ ".") +:+ k) ->
                          result' !! j = result !! j))
        /\ (hasFlag flag FLAG_DIVE = false -> hasFlag flag FLAG_DOTTED = false ->
            result' = <[tagVal := AMappedStruct (Some deepRes)]> result))
  /\ StructToMap ro (Some (recordA "b,dive")) "json" ""
     = Ret (Some (<["aa" := gostring "x"]> (<["c" := gostring "y"]> ∅)), None)
  /\ StructToMap ro (Some (recordA "b,dotted")) "json" ""
     = Ret (Some (<["aa" := gostring "x"]> (<["b.c" := gostring "y"]> ∅)), None).
Proof.
  split_and!.
  - intros result fieldType fieldValue tagVal flag nested fields deepRes Hreach Hd Hs.
    rewrite (fieldBody_kindSwitch _ _ _ _ _ _ _ _ _ _ Hreach).
    unfold kindSwitch. rewrite Hd, Hs.
    destruct (hasFlag flag FLAG_DIVE); [|destruct (hasFlag flag FLAG_DOTTED)];
      eexists; (split; [reflexivity|]); split_and!; try done.
    + intros _ k. apply rangeInto_dive_lookup.
    + intros _ _. split.
      * intros k v. apply rangeInto_dotted_lookup.
      * intros j. apply rangeInto_dotted_other.
  - unfold StructToMap. rewrite (StructToMapOf_order ro keyOrder).
    vm_compute. reflexivity.
  - unfold StructToMap. rewrite (StructToMapOf_order ro keyOrder).
    vm_compute. reflexivity.
Qed.

Lemma nested_record_composition_witness :
  exists result',
    fieldBody keyOrder (StructToMapOf keyOrder "json" "") "json" ""
              (<["aa" := gostring "x"]> ∅)
              (exported "B" [("json", "b,dotted")]) recordB = Continue result'
    /\ result' !! "b.c" = Some (gostring "y").
Proof.
  destruct (proj1 (nested_record_composition keyOrder "json" "")
              (<["aa" := gostring "x"]> ∅) (exported "B" [("json", "b,dotted")])
              recordB "b" 16 recordB
              [(exported "C" [("json", "c")], Val [] (DString "y"))]
              (<["c" := gostring "y"]> ∅))
    as (result' & Hbody & _ & Hdotted & _).
  - split; [repeat split; reflexivity|]. exists ANil. reflexivity.
  - reflexivity.
  - vm_compute. reflexivity.
  - exists result'. split; [exact Hbody|].
    apply (proj1 (Hdotted eq_refl eq_refl) "c" (gostring "y")). reflexivity.
Defined.

(** C1, as stated, fails when both flags are set: with the tag
    [b,dive,dotted] the Dotted flag is set, yet the nested key [c] is
    written as [c] and nothing is stored at [b.c]. *)
Lemma dotted_with_dive_counterexample :
  tagsReader (exported "B" [("json", "b,dive,dotted")]) "json" = Ret ("b", 20)
  /\ hasFlag 20 FLAG_DOTTED = true
  /\ StructToMap keyOrder (Some (recordA "b,dive,dotted")) "json" ""
     = Ret (Some (<["aa" := gostring "x"]> (<["c" := gostring "y"]> ∅)), None)
  /\ (<["aa" := gostring "x"]> (<["c" := gostring "y"]> ∅) : MappedStruct) !! "b.c"
     = None.
Proof. split_and!; vm_compute; reflexivity. Qed.

(** ** The override hook in the loop *)

(** C5: when the override hook yields a non-empty key for a field, the body
    of the loop writes the hook's value at that key and goes on to the next
    field. The kind switch is not entered: the result is the same whatever
    the recursive conversion would do on the field. A field whose type has a
    method [M] returning [("custom", 42)] gives [custom -> 42] and nothing
    else, although it is a nested record. *)
Theorem override_bypasses_dispatch (ro : RangeOrder) (tag method : string) :
  (forall self result fieldType fieldValue tagVal flag fv key value,
      reachesOverride tag fieldType fieldValue tagVal flag fv ->
      assignValueWithMethod fv method = Ret (key, value, None) ->
      key <> "" ->
      fieldBody ro self tag method result fieldType fieldValue
      = Continue (<[key := value]> result))
  /\ StructToMap ro (Some recordWithOverride) "json" "M"
     = Ret (Some {["custom" := AGo (Val [] (DInt SizeInt 42))]}, None).
Proof.
  split.
  - intros self result fieldType fieldValue tagVal flag fv key value Hreach Hh Hk.
    rewrite (fieldBody_dispatch _ _ _ _ _ _ _ _ _ _ Hreach).
    unfold dispatch. rewrite Hh. by rewrite bool_decide_eq_false_2.
  - unfold StructToMap. rewrite (StructToMapOf_order ro keyOrder).
    vm_compute. reflexivity.
Qed.

Lemma override_bypasses_dispatch_witness :
  fieldBody keyOrder (fun _ => Panic "unused") "json" "M" ∅
            (exported "B" [("json", "b")]) recordBWithM
  = Continue (<["custom" := AGo (Val [] (DInt SizeInt 42))]> ∅).
Proof.
  apply (proj1 (override_bypasses_dispatch keyOrder "json" "M")
           (fun _ => Panic "unused") ∅ (exported "B" [("json", "b")])
           recordBWithM "b" 0 recordBWithM "custom"
           (AGo (Val [] (DInt SizeInt 42)))).
  - repeat split; reflexivity.
  - reflexivity.
  - discriminate.
Defined.

(** X20: the contract of the hook where the call goes through. The hook
    returns the empty key, the nil value and no error when the method name
    is empty or the type of the value has no method of that name. When it
    has one, the value is not a nil interface and the call with no argument
    returns outputs, the hook returns an error exactly when there are not
    two outputs or the first is not of string kind; every such error is an
    invalid-signature error with the empty key and the nil value; otherwise
    the hook returns the string and the second output. A method returning
    three outputs gives the error. *)
Theorem override_hook_contract (reflectedValue : value) (method : string) :
  ((method = "" \/ MethodByName reflectedValue method = None) ->
   assignValueWithMethod reflectedValue method = Ret ("", ANil, None))
  /\ (forall m results,
        method <> "" ->
        MethodByName reflectedValue method = Some m ->
        (Kind reflectedValue = reflect.Interface -> IsNil reflectedValue = false) ->
        Call m = Ret results ->
        ((exists key value e,
             assignValueWithMethod reflectedValue method = Ret (key, value, Some e))
         <-> (length results <> 2%nat
              \/ exists r0, head results = Some r0 /\ Kind r0 <> reflect.String))
        /\ (forall key value e,
              assignValueWithMethod reflectedValue method = Ret (key, value, Some e) ->
              key = "" /\ value = ANil /\ errorKind e = InvalidOverrideSignature)
        /\ (forall r0 r1,
              results = [r0; r1] -> Kind r0 = reflect.String ->
              assignValueWithMethod reflectedValue method
              = Ret (stringOf r0, Interface r1, None)))
  /\ assignValueWithMethod (Val [("M", methodM3)] (DInt SizeInt 7)) "M"
     = Ret ("", ANil, Some (ErrMethodOutputs "M")).
Proof.
  split_and!; [| |reflexivity].
  - intros [->|Hm]; [done|]. unfold assignValueWithMethod.
    rewrite Hm. by case_decide.
  - intros m results Hne Hm Hnil Hc.
    assert (Hi : bool_decide (Kind reflectedValue = reflect.Interface)
                 && IsNil reflectedValue = false).
    { case_bool_decide; [by rewrite Hnil|done]. }
    assert (Hunfold : assignValueWithMethod reflectedValue method =
      if negb (length results =? method_results_total)%nat
      then Ret ("", ANil, Some (ErrMethodOutputs method))
      else match results with
           | r0 :: r1 :: _ =>
               if negb (bool_decide (Kind r0 = reflect.String))
               then Ret ("", ANil, Some (ErrMethodFirstOutput method))
               else Ret (stringOf r0, Interface r1, None)
           | _ => Panic "index out of range"
           end).
    { unfold assignValueWithMethod, callFunc. rewrite decide_False by done.
      rewrite Hm, Hi, Hc. destruct (negb _); [done|].
      destruct results as [|r0 [|r1 rest]]; [done..|]. by destruct (negb _). }
    split_and!.
    + rewrite Hunfold. unfold method_results_total.
      destruct results as [|r0 [|r1 [|r2 rest]]]; simpl.
      * split; [by left|]. intros _. by eexists _, _, _.
      * split; [by left|]. intros _. by eexists _, _, _.
      * case_bool_decide as Hk; simpl.
        -- split; [by intros (? & ? & ? & [=])|].
           intros [?|(r & [= <-] & ?)]; done.
        -- split; [|intros _; by eexists _, _, _].
           intros _. right. by exists r0.
      * split; [intros _; left; simpl; lia|]. intros _. by eexists _, _, _.
    + intros key value e. apply assignValueWithMethod_error.
    + intros r0 r1 -> Hk. rewrite Hunfold. simpl.
      by rewrite bool_decide_eq_true_2.
Qed.

Lemma override_hook_contract_witness :
  assignValueWithMethod recordBWithM "M"
  = Ret ("custom", AGo (Val [] (DInt SizeInt 42)), None).
Proof.
  refine (proj2 (proj2 (proj1 (proj2 (override_hook_contract recordBWithM "M"))
            methodM
            [Val [] (DString "custom");
             Val [] (DInterface (Some (Val [] (DInt SizeInt 42))))]
            _ _ _ _))
          (Val [] (DString "custom"))
          (Val [] (DInterface (Some (Val [] (DInt SizeInt 42))))) _ _);
    try reflexivity; discriminate.
Defined.

(** C6: on a value whose type has a method [M] that takes one argument,
    the type exposes no zero-argument operation of that name, and the hook
    does not return the no-op triple: the method is found by name alone and
    called without arguments, and the call panics. *)
Lemma override_hook_arity_counterexample :
  MethodByName valueWithM1 "M" = Some methodM1
  /\ callableWithoutArguments methodM1 = false
  /\ assignValueWithMethod valueWithM1 "M"
     = Panic "reflect: Call with too few input arguments"
  /\ assignValueWithMethod valueWithM1 "M" <> Ret ("", ANil, None).
Proof. split_and!; [reflexivity..|discriminate]. Qed.

(** ** Omitted, nil and unhandled fields *)

Lemma resolved_None_IsZero (v : value) : resolved v = None -> IsZero v = true.
Proof.
  destruct v as [ms d]. rewrite resolved_cases.
  by destruct d as [| | | | | | | | | | | | |[x|]| |].
Qed.

(** Zero as [==] has it: the negative zero is zero, and a blank field does
    not count. *)
Lemma IsZero_negative_zero_and_blank_field :
  IsZero (Val [] (DFloat SizeF64 (S754_zero true))) = true
  /\ IsZero (Val [] (DStruct [({| Name := "_"; PkgPath := "main"; Tag := [] |},
                               Val [] (DInt SizeInt 1));
                              (exported "A" [], Val [] (DString ""))])) = true.
Proof. split; reflexivity. Qed.

Lemma kindSwitch_unhandled ro self tagVal flag result fv :
  Kind fv ∉ handledKinds ->
  kindSwitch ro self tagVal flag result fv = Continue result.
Proof.
  intros Hk. destruct fv as [ms d].
  destruct d as [|sz ?|sz ?| |sz ?|sz ? ?| | | | | | | | | |];
    try done; try destruct sz;
    by destruct Hk; apply (bool_decide_unpack _).
Qed.

Lemma kindSwitch_stores ro self tagVal flag result fv :
  Kind fv ∈ handledKinds -> Kind fv <> reflect.Struct ->
  exists a, kindSwitch ro self tagVal flag result fv
            = Continue (<[tagVal := a]> result).
Proof.
  intros Hk Hs. destruct fv as [ms d]. unfold kindSwitch.
  destruct d as [| | | | | | | | | | | | | | |]; simpl in *;
    try (by destruct Hs);
    try (by apply (bool_decide_pack _) in Hk);
    try (destruct (hasFlag flag FLAG_WILDCARD)); by eexists.
Qed.

(** C8, as the code has it: a field with the OmitIfEmpty flag whose value is
    the zero value of its type leaves the container as it is, and so does a
    field whose value is a nil pointer, whatever its flags: the record
    converts as the record without the field. A visible, not ignored field
    with a non-zero value is not omitted: it resolves (a pointer is
    dereferenced once) and goes through the override hook and the kind
    switch, and when the hook yields no key and the resolved kind is one
    that the switch stores, a value is written at its tag key. *)
Theorem omitempty_and_nil_pointer (ro : RangeOrder) (tag method : string)
    (fieldType : StructField) (fieldValue : value) (tagVal : string) (flag : Z) :
  tagsReader fieldType tag = Ret (tagVal, flag) ->
  (hasFlag flag FLAG_OMITEMPTY = true -> IsZero fieldValue = true ->
   (forall self result,
       fieldBody ro self tag method result fieldType fieldValue = Continue result)
   /\ (forall ms l1 l2,
         StructToMap ro (Some (Val ms (DStruct (l1 ++ (fieldType, fieldValue) :: l2))))
                     tag method
         = StructToMap ro (Some (Val ms (DStruct (l1 ++ l2)))) tag method))
  /\ (PkgPath fieldType = "" -> hasFlag flag FLAG_IGNORE = false ->
      IsZero fieldValue = false ->
      exists fv,
        resolved fieldValue = Some fv
        /\ (forall self result,
              fieldBody ro self tag method result fieldType fieldValue
              = dispatch ro self method tagVal flag result fv)
        /\ ((exists value, assignValueWithMethod fv method = Ret ("", value, None)) ->
            Kind fv ∈ handledKinds -> Kind fv <> reflect.Struct ->
            forall self result,
            exists a, fieldBody ro self tag method result fieldType fieldValue
                      = Continue (<[tagVal := a]> result)))
  /\ (forall ms, fieldValue = Val ms (DPointer None) ->
      (forall self result,
          fieldBody ro self tag method result fieldType fieldValue = Continue result)
      /\ (forall ms' l1 l2,
            StructToMap ro (Some (Val ms' (DStruct (l1 ++ (fieldType, fieldValue) :: l2))))
                        tag method
            = StructToMap ro (Some (Val ms' (DStruct (l1 ++ l2)))) tag method))
  /\ (forall ms x, fieldValue = Val ms (DPointer (Some x)) ->
      PkgPath fieldType = "" -> hasFlag flag FLAG_IGNORE = false ->
      forall self result,
        fieldBody ro self tag method result fieldType fieldValue
        = dispatch ro self method tagVal flag result x).
Proof.
  intros Ht. split_and!.
  - intros Hf Hz.
    assert (Hskip : forall self result,
      fieldBody ro self tag method result fieldType fieldValue = Continue result)
      by (intros; by eapply fieldBody_omitted).
    split; [done|]. intros ms l1 l2. by apply StructToMap_skip.
  - intros Hp Hi Hz.
    destruct (resolved fieldValue) as [fv|] eqn:Hr;
      [|apply resolved_None_IsZero in Hr; congruence].
    assert (Hreach : reachesOverride tag fieldType fieldValue tagVal flag fv).
    { split_and!; try done. rewrite Hz. apply andb_false_r. }
    exists fv. split_and!; [done| |].
    + intros self result. by apply fieldBody_dispatch.
    + intros Hh Hk Hs self result.
      rewrite (fieldBody_kindSwitch _ _ _ _ _ _ _ tagVal flag fv); [|done].
      by apply kindSwitch_stores.
  - intros ms ->.
    assert (Hskip : forall self result,
      fieldBody ro self tag method result fieldType (Val ms (DPointer None))
      = Continue result)
      by (intros; by apply fieldBody_nil_pointer).
    split; [done|]. intros ms' l1 l2. by apply StructToMap_skip.
  - intros ms x -> Hp Hi self result. apply fieldBody_dispatch.
    split_and!; try done. apply andb_false_r.
Qed.

Lemma omitempty_and_nil_pointer_witness :
  StructToMap keyOrder
    (Some (Val [] (DStruct ([] ++ (exported "N" [("json", "n,omitempty")],
                                   Val [] (DInt SizeInt 0))
                               :: [(exported "C" [("json", "c")], Val [] (DString "y"))]))))
    "json" ""
  = StructToMap keyOrder (Some recordB) "json" "".
Proof.
  refine (proj2 (proj1 (omitempty_and_nil_pointer keyOrder "json" ""
            (exported "N" [("json", "n,omitempty")]) (Val [] (DInt SizeInt 0))
            "n" 2 _) _ _) [] [] _); reflexivity.
Defined.

(** C8, as stated, fails on a field [F func()] tagged [f,omitempty] holding
    a function: the value is not the zero value and the field is not in the
    result. *)
Lemma omitempty_nonzero_counterexample :
  IsZero (Val [] (DFunc (Some 1%nat))) = false
  /\ tagsReader (exported "F" [("json", "f,omitempty")]) "json"
     = Ret ("f", FLAG_OMITEMPTY)
  /\ StructToMap keyOrder (Some recordWithFunc) "json" "" = Ret (Some ∅, None).
Proof. split_and!; vm_compute; reflexivity. Qed.

(** C10, as the code has it: a field whose resolved value is of none of
    the kinds of the kind switch (a function, a uintptr, an unsafe pointer,
    a pointer to a pointer), and on which the override hook yields no key
    (as when no method name is given or the type has no such method), leaves
    the container as it is and returns no error: the record converts as the
    record without the field. *)
Theorem unhandled_kind_dropped (ro : RangeOrder) (tag method : string)
    (fieldType : StructField) (fieldValue : value) (fv : value) :
  resolved fieldValue = Some fv ->
  (method = "" \/ MethodByName fv method = None
   \/ exists value, assignValueWithMethod fv method = Ret ("", value, None)) ->
  Kind fv ∉ handledKinds ->
  (forall self result,
      fieldBody ro self tag method result fieldType fieldValue = Continue result)
  /\ (forall ms l1 l2,
        StructToMap ro (Some (Val ms (DStruct (l1 ++ (fieldType, fieldValue) :: l2))))
                    tag method
        = StructToMap ro (Some (Val ms (DStruct (l1 ++ l2)))) tag method).
Proof.
  intros Hr Hhook Hk.
  assert (Hh : exists value, assignValueWithMethod fv method = Ret ("", value, None)).
  { destruct Hhook as [->|[Hm|Hh]]; [by exists ANil| |done].
    exists ANil. unfold assignValueWithMethod. rewrite Hm. by case_decide. }
  assert (Hskip : forall self result,
    fieldBody ro self tag method result fieldType fieldValue = Continue result).
  { intros self result.
    destruct (decide (PkgPath fieldType = "")) as [Hp|Hp];
      [|by apply fieldBody_unexported].
    destruct (tagsReader fieldType tag) as [[tagVal flag]|msg] eqn:Ht;
      [|by rewrite tagsReader_returns in Ht; destruct (Lookup _ _)].
    destruct (hasFlag flag FLAG_IGNORE) eqn:Hi; [by eapply fieldBody_ignored|].
    destruct (hasFlag flag FLAG_OMITEMPTY && IsZero fieldValue) eqn:Ho.
    { apply andb_true_iff in Ho as [? ?]. by eapply fieldBody_omitted. }
    rewrite (fieldBody_kindSwitch _ _ _ _ _ _ _ tagVal flag fv); [|done].
    by apply kindSwitch_unhandled. }
  split; [done|]. intros ms l1 l2. by apply StructToMap_skip.
Qed.

Lemma unhandled_kind_dropped_witness :
  StructToMap keyOrder
    (Some (Val [] (DStruct ([] ++ (exported "PP" [("json", "pp")],
                                   Val [] (DPointer (Some (Val [] (DPointer
                                     (Some (Val [] (DInt SizeInt 3))))))))
                               :: [(exported "C" [("json", "c")], Val [] (DString "y"))]))))
    "json" ""
  = StructToMap keyOrder (Some recordB) "json" "".
Proof.
  refine (proj2 (unhandled_kind_dropped keyOrder "json" ""
            (exported "PP" [("json", "pp")])
            (Val [] (DPointer (Some (Val [] (DPointer (Some (Val [] (DInt SizeInt 3))))))))
            (Val [] (DPointer (Some (Val [] (DInt SizeInt 3))))) _ _ _)
          [] [] _).
  - reflexivity.
  - left. reflexivity.
  - intros Hin. by apply (bool_decide_pack _) in Hin.
Defined.

(** C10, as stated, fails when the override hook applies: a field of a
    function type that has the method [M] is of function kind, and the call
    with method name [M] writes the hook's key for it. *)
Lemma unhandled_kind_override_counterexample :
  Kind (Val [("M", methodM)] (DFunc (Some 1%nat))) = reflect.Func
  /\ (reflect.Func ∉ handledKinds)
  /\ StructToMap keyOrder (Some recordWithHandler) "json" "M"
     = Ret (Some {["custom" := AGo (Val [] (DInt SizeInt 42))]}, None).
Proof.
  split_and!; [reflexivity| |vm_compute; reflexivity].
  intros Hin. by apply (bool_decide_pack _) in Hin.
Qed.

(** * Further properties *)

(** ** Success and failure of the whole call *)

Lemma forFields_Continue (body : MappedStruct -> StructField -> value -> flow)
    (fields : list (StructField * value)) (result : MappedStruct) :
  Forall (fun fv => forall r, exists r', body r fv.1 fv.2 = Continue r') fields ->
  exists result', forFields body fields result = Continue result'.
Proof.
  intros Hall. revert result.
  induction Hall as [|[ft fv] fields Hhd _ IH]; intros result; simpl; [by eauto|].
  simpl in Hhd. destruct (Hhd result) as [r' ->]. apply IH.
Qed.

Lemma tagsReader_no_panic (structField : StructField) (tag msg : string) :
  tagsReader structField tag <> Panic msg.
Proof. rewrite tagsReader_returns. by destruct (Lookup _ _). Qed.

(** With no method name an iteration goes on as soon as the nested
    conversion, if there is one, succeeds. *)
Lemma fieldBody_disabled_Continue ro self tag result fieldType fieldValue :
  (forall fv fields, resolved fieldValue = Some fv -> dataOf fv = DStruct fields ->
                     exists m, self fv = Ret (Some m, None)) ->
  exists result',
    fieldBody ro self tag "" result fieldType fieldValue = Continue result'.
Proof.
  intros Hself. unfold fieldBody. unfold resolved in Hself.
  destruct (negb _); [by eauto|].
  destruct (tagsReader fieldType tag) as [[tagVal flag]|msg] eqn:Ht;
    [|by apply tagsReader_no_panic in Ht].
  destruct (hasFlag _ FLAG_IGNORE); [by eauto|].
  destruct (_ && IsZero _); [by eauto|].
  assert (Hd : forall fv,
    (forall fields, dataOf fv = DStruct fields -> exists m, self fv = Ret (Some m, None)) ->
    exists result', dispatch ro self "" tagVal flag result fv = Continue result').
  { intros fv Hfv. unfold dispatch, kindSwitch. simpl.
    destruct (dataOf fv) eqn:Hdata; try (by eauto).
    - destruct (hasFlag flag FLAG_WILDCARD); by eauto.
    - destruct (Hfv _ eq_refl) as [m ->].
      destruct (hasFlag flag FLAG_DIVE), (hasFlag flag FLAG_DOTTED); by eauto. }
  case_bool_decide; simpl.
  - destruct (IsNil fieldValue); [by eauto|]. apply Hd. by eauto.
  - apply Hd. by eauto.
Qed.

Lemma StructToMapOf_disabled_succeeds ro tag v :
  forall rv fields,
    resolved v = Some rv -> dataOf rv = DStruct fields ->
    exists result, StructToMapOf ro tag "" rv = Ret (Some result, None).
Proof.
  induction v as [ms d IHptr IHfields] using value_ind_deep.
  intros rv fields Hrv Hd. rewrite resolved_cases in Hrv.
  destruct d as [| | | | | | | | | | | | |[x|]| |fs]; try (by simplify_eq/=).
  - injection Hrv as ->.
    apply (IHptr rv eq_refl rv fields); [|done]. by eapply resolved_struct.
  - injection Hrv as <-. simpl in Hd. injection Hd as ->.
    specialize (IHfields fields eq_refl). rewrite StructToMapOf_struct.
    destruct (forFields_Continue
                (fieldBody ro (StructToMapOf ro tag "") tag "") fields ∅)
      as [result' ->]; [|by eauto].
    eapply Forall_impl; [exact IHfields|].
    intros [ft fvl] IH r. simpl in *. apply fieldBody_disabled_Continue.
    intros fv fs Hfv Hfs. by eapply IH.
Qed.

(** X1: with the override hook disabled (empty method name), the
    conversion of acyclic data (a finite tree of values, the data the
    conversion is for) that is a struct or a non-nil pointer to a struct
    raises no error and no panic: it returns a map, whatever the kinds,
    tags and flags of the fields at every depth. *)
Theorem StructToMap_without_method_succeeds (ro : RangeOrder)
    (data : option value) (tag : string) :
  resolvedKind data = Some reflect.Struct ->
  exists result, StructToMap ro data tag "" = Ret (Some result, None).
Proof.
  destruct data as [v|]; simpl; [|done].
  intros (rv & Hrv & Hk)%fmap_Some.
  assert (Hd : exists fields, dataOf rv = DStruct fields).
  { destruct rv as [ms d]. destruct d as [|sz ?|sz ?| |sz ?|sz ? ?| | | | | | | | | |];
      try done; try (by destruct sz). by eauto. }
  destruct Hd as [fields Hd].
  rewrite (StructToMapOf_resolved _ _ _ v rv fields) by done.
  by eapply StructToMapOf_disabled_succeeds.
Qed.

Lemma StructToMap_without_method_succeeds_witness :
  exists result,
    StructToMap keyOrder (Some (Val [] (DPointer (Some recordWithHandler)))) "json" ""
    = Ret (Some result, None).
Proof.
  apply (StructToMap_without_method_succeeds keyOrder
           (Some (Val [] (DPointer (Some recordWithHandler)))) "json").
  reflexivity.
Defined.

(** X2: a call that returns gives back exactly one of the two results:
    either a non-nil map with the nil error, or the nil map with an error;
    never both and never neither. *)
Theorem StructToMap_map_xor_error (ro : RangeOrder) (data : option value)
    (tag method : string) (m : option MappedStruct) (e : option error) :
  StructToMap ro data tag method = Ret (m, e) ->
  (is_Some m /\ e = None) \/ (m = None /\ is_Some e).
Proof.
  destruct data as [v|]; simpl.
  - intros [?|?]%StructToMapOf_returned; tauto.
  - intros [= <- <-]. right. by eauto.
Qed.

Lemma StructToMap_map_xor_error_witness :
  (is_Some (Some (∅ : MappedStruct)) /\ (None : option error) = None)
  \/ (Some (∅ : MappedStruct) = None /\ is_Some (None : option error)).
Proof.
  apply (StructToMap_map_xor_error keyOrder (Some recordWithFunc) "json" "").
  vm_compute. reflexivity.
Defined.



(** X4: only one level of indirection is removed from the input: a pointer
    to a pointer is rejected as not a struct, with the kind [ptr] in the
    message, even when a struct lies behind the second pointer. *)
Theorem StructToMap_pointer_to_pointer (ro : RangeOrder) (tag method : string)
    (ms ms' : list (string * Method)) (inner : option value) :
  exists e,
    StructToMap ro (Some (Val ms (DPointer (Some (Val ms' (DPointer inner))))))
                tag method = Ret (None, Some e)
    /\ errorKind e = NotARecord
    /\ Error e = "data is not a struct but ptr".
Proof. exists (ErrNotStruct reflect.Pointer). by split_and!. Qed.

(** ** Pointer fields and empty values *)



Lemma kindSwitch_stores_uniform tagVal flag fv :
  Kind fv ∈ handledKinds -> Kind fv <> reflect.Struct ->
  exists a, forall ro self result,
      kindSwitch ro self tagVal flag result fv = Continue (<[tagVal := a]> result).
Proof.
  intros Hk Hs. destruct fv as [ms d]. unfold kindSwitch.
  destruct d as [| | | | | | | | | | | | | | |]; simpl in *;
    try (by destruct Hs);
    try (by apply (bool_decide_pack _) in Hk);
    try (destruct (hasFlag flag FLAG_WILDCARD)); by eexists.
Qed.

(** X6: OmitIfEmpty looks at the field itself, not at what a pointer points
    to: for a visible, not ignored field with the flag, a zero value is
    omitted, while a non-nil pointer to that same zero value is written at
    the tag key (when the hook yields no key and the kind is one the switch
    stores). *)
Theorem omitempty_pointer_to_zero (ro : RangeOrder) (tag method : string)
    (fieldType : StructField) (ms : list (string * Method)) (x : value)
    (tagVal : string) (flag : Z) :
  PkgPath fieldType = "" ->
  tagsReader fieldType tag = Ret (tagVal, flag) ->
  hasFlag flag FLAG_IGNORE = false ->
  hasFlag flag FLAG_OMITEMPTY = true ->
  IsZero x = true ->
  (exists value, assignValueWithMethod x method = Ret ("", value, None)) ->
  Kind x ∈ handledKinds -> Kind x <> reflect.Struct ->
  exists a, forall self result,
    fieldBody ro self tag method result fieldType x = Continue result
    /\ fieldBody ro self tag method result fieldType (Val ms (DPointer (Some x)))
       = Continue (<[tagVal := a]> result).
Proof.
  intros Hp Ht Hi Ho Hz Hh Hk Hs.
  destruct (kindSwitch_stores_uniform tagVal flag x Hk Hs) as [a Ha].
  exists a. intros self result. split; [by eapply fieldBody_omitted|].
  rewrite (fieldBody_kindSwitch _ _ _ _ _ _ _ tagVal flag x); [done|].
  split; [|done]. split_and!; try done. apply andb_false_r.
Qed.

Lemma omitempty_pointer_to_zero_witness :
  exists a, forall self result,
    fieldBody keyOrder self "json" "" result
              (exported "N" [("json", "n,omitempty")]) (Val [] (DInt SizeInt 0))
    = Continue result
    /\ fieldBody keyOrder self "json" "" result
                 (exported "N" [("json", "n,omitempty")])
                 (Val [] (DPointer (Some (Val [] (DInt SizeInt 0)))))
       = Continue (<["n" := a]> result).
Proof.
  apply (omitempty_pointer_to_zero keyOrder "json" ""
           (exported "N" [("json", "n,omitempty")]) [] (Val [] (DInt SizeInt 0))
           "n" 2); try reflexivity.
  - exists ANil. reflexivity.
  - by apply (bool_decide_unpack _).
  - discriminate.
Defined.

(** ** The container along the loop *)

Lemma foldl_insert_dom (key : string -> string) (l : list (string * any))
    (result : MappedStruct) :
  dom result ⊆ dom (foldl (fun result kv => <[key kv.1 := kv.2]> result) result l).
Proof.
  revert result. induction l as [|kv l IH]; intros result; simpl; [done|].
  etrans; [|apply IH]. apply dom_insert_subseteq.
Qed.

Lemma kindSwitch_dom ro self tagVal flag result fv result' :
  kindSwitch ro self tagVal flag result fv = Continue result' ->
  dom result ⊆ dom result'.
Proof.
  unfold kindSwitch.
  destruct (dataOf fv); try (intros [= <-]; first [done|apply dom_insert_subseteq]).
  - destruct (hasFlag flag FLAG_WILDCARD); intros [= <-]; apply dom_insert_subseteq.
  - destruct (self fv) as [[deepRes [e|]]|]; [done| |done].
    destruct (hasFlag flag FLAG_DIVE); [|destruct (hasFlag flag FLAG_DOTTED)];
      intros [= <-];
      first [apply foldl_insert_dom|apply dom_insert_subseteq].
Qed.

Lemma fieldBody_dom ro self tag method result fieldType fieldValue result' :
  fieldBody ro self tag method result fieldType fieldValue = Continue result' ->
  dom result ⊆ dom result'.
Proof.
  unfold fieldBody.
  destruct (negb _); [by intros [= <-]|].
  destruct (tagsReader _ _) as [[tagVal flag]|]; [|done].
  destruct (hasFlag flag FLAG_IGNORE); [by intros [= <-]|].
  destruct (_ && IsZero _); [by intros [= <-]|].
  destruct (_ && IsNil _); [by intros [= <-]|].
  unfold dispatch.
  destruct (assignValueWithMethod _ _) as [[[key value] [err|]]|]; [done| |done].
  destruct (negb _); [intros [= <-]; apply dom_insert_subseteq|].
  apply kindSwitch_dom.
Qed.

Lemma forFields_dom ro self tag method fields result result' :
  forFields (fieldBody ro self tag method) fields result = Continue result' ->
  dom result ⊆ dom result'.
Proof.
  revert result. induction fields as [|[ft fv] fields IH]; intros result; simpl.
  - by intros [= <-].
  - destruct (fieldBody _ _ _ _ _ _ _) as [r1| |] eqn:Hb; [|done..].
    intros Hrest. etrans; [by eapply fieldBody_dom|by apply IH].
Qed.

(** The conversion of a struct succeeds with a map exactly when the loop
    runs to its end with that map. *)
Lemma StructToMapOf_struct_success ro tag method ms fields m :
  StructToMapOf ro tag method (Val ms (DStruct fields)) = Ret (Some m, None)
  <-> forFields (fieldBody ro (StructToMapOf ro tag method) tag method) fields ∅
      = Continue m.
Proof.
  rewrite StructToMapOf_struct.
  destruct (forFields _ _ _) as [r|r|] eqn:Hloop; simpl.
  - split; by intros [= <-].
  - apply forFields_fieldBody_Return in Hloop as [e ->]. by split.
  - by split.
Qed.

(** X7: fields only add keys or overwrite values, they never remove a key:
    every key of the result for a struct is still a key of the result for
    the same struct with more fields after it. *)
Theorem StructToMap_keys_monotone (ro : RangeOrder) (tag method : string)
    (ms : list (string * Method)) (l1 l2 : list (StructField * value))
    (m1 m : MappedStruct) :
  StructToMap ro (Some (Val ms (DStruct l1))) tag method = Ret (Some m1, None) ->
  StructToMap ro (Some (Val ms (DStruct (l1 ++ l2)))) tag method = Ret (Some m, None) ->
  dom m1 ⊆ dom m.
Proof.
  unfold StructToMap. rewrite !StructToMapOf_struct_success, forFields_app.
  intros ->. apply forFields_dom.
Qed.

Lemma StructToMap_keys_monotone_witness :
  dom (<["aa" := gostring "x"]> (∅ : MappedStruct))
  ⊆ dom (<["aa" := gostring "x"]> (<["c" := gostring "y"]> (∅ : MappedStruct))).
Proof.
  apply (StructToMap_keys_monotone keyOrder "json" "" []
           [(exported "AA" [("json", "aa")], Val [] (DString "x"))]
           [(exported "B" [("json", "b,dive")], recordB)]);
    vm_compute; reflexivity.
Defined.

(** X8: the last write wins. A field that reaches generic dispatch with a
    kind the switch stores writes one value at its tag key, the same value
    whatever the container holds, over any value an earlier field left
    there: the result for the struct with this field appended is the result
    without it, updated at the tag key. *)
Theorem last_field_wins (ro : RangeOrder) (tag method : string)
    (ms : list (string * Method)) (l : list (StructField * value))
    (fieldType : StructField) (fieldValue : value) (tagVal : string) (flag : Z)
    (fv : value) (m1 : MappedStruct) :
  reachesGenericDispatch tag method fieldType fieldValue tagVal flag fv ->
  Kind fv ∈ handledKinds -> Kind fv <> reflect.Struct ->
  StructToMap ro (Some (Val ms (DStruct l))) tag method = Ret (Some m1, None) ->
  exists a,
    StructToMap ro (Some (Val ms (DStruct (l ++ [(fieldType, fieldValue)]))))
                tag method = Ret (Some (<[tagVal := a]> m1), None)
    /\ (<[tagVal := a]> m1 : MappedStruct) !! tagVal = Some a
    /\ forall k, k <> tagVal -> (<[tagVal := a]> m1 : MappedStruct) !! k = m1 !! k.
Proof.
  intros Hreach Hk Hs. unfold StructToMap.
  rewrite StructToMapOf_struct_success. intros Hl.
  destruct (kindSwitch_stores_uniform tagVal flag fv Hk Hs) as [a Ha].
  exists a. split_and!.
  - apply StructToMapOf_struct_success. rewrite forFields_app, Hl. simpl.
    rewrite (fieldBody_kindSwitch _ _ _ _ _ _ _ tagVal flag fv) by done.
    by rewrite Ha.
  - apply lookup_insert_eq.
  - intros k Hne. by apply lookup_insert_ne.
Qed.

Lemma last_field_wins_witness :
  exists a,
    StructToMap keyOrder
      (Some (Val [] (DStruct ([(exported "A" [("json", "k")], Val [] (DInt SizeInt 1))]
                              ++ [(exported "B" [("json", "k")], Val [] (DInt SizeInt 2))]))))
      "json" ""
    = Ret (Some (<["k" := a]> (<["k" := int64 1]> ∅)), None)
    /\ (<["k" := a]> (<["k" := int64 1]> ∅) : MappedStruct) !! "k" = Some a
    /\ forall k, k <> "k" ->
         (<["k" := a]> (<["k" := int64 1]> ∅) : MappedStruct) !! k
         = (<["k" := int64 1]> ∅ : MappedStruct) !! k.
Proof.
  apply (last_field_wins keyOrder "json" "" []
           [(exported "A" [("json", "k")], Val [] (DInt SizeInt 1))]
           (exported "B" [("json", "k")]) (Val [] (DInt SizeInt 2)) "k" 0
           (Val [] (DInt SizeInt 2))).
  - split; [repeat split; reflexivity|]. exists ANil. reflexivity.
  - by apply (bool_decide_unpack _).
  - discriminate.
  - vm_compute. reflexivity.
Defined.

(** X9: a struct none of whose fields is both exported and tagged under the
    namespace (in particular a struct without fields, or a namespace that no
    field declares) converts to the empty, non-nil map without error,
    whatever the fields hold and whatever the method name. *)
Theorem StructToMap_nothing_tagged (ro : RangeOrder) (tag method : string)
    (ms : list (string * Method)) (fields : list (StructField * value)) :
  Forall (fun fv => PkgPath fv.1 <> "" \/ Lookup (Tag fv.1) tag = None) fields ->
  StructToMap ro (Some (Val ms (DStruct fields))) tag method = Ret (Some ∅, None).
Proof.
  intros Hall. unfold StructToMap. apply StructToMapOf_struct_success.
  generalize (∅ : MappedStruct).
  induction Hall as [|[ft fv] fields Hhd _ IH]; intros result; simpl; [done|].
  simpl in Hhd. destruct Hhd as [Hp|Hn].
  - by rewrite fieldBody_unexported.
  - rewrite (fieldBody_ignored _ _ _ _ _ _ _ "" FLAG_IGNORE); [done| |done].
    by rewrite tagsReader_returns, Hn.
Qed.

Lemma StructToMap_nothing_tagged_witness :
  StructToMap keyOrder (Some (recordA "b,dive")) "yaml" "M" = Ret (Some ∅, None).
Proof.
  apply (StructToMap_nothing_tagged keyOrder "yaml" "M").
  repeat (apply List.Forall_cons; [right; reflexivity|]). apply List.Forall_nil.
Defined.

(** ** The tag parser and the hook, further *)

(** X10: the flags of a tag do not depend on the order of its option words
    nor on their repetition: two tag values with the same first token and
    the same set of tokens are parsed to the same key and flags. *)
Theorem tagsReader_option_order (f1 f2 : StructField) (tag tv1 tv2 : string) :
  Lookup (Tag f1) tag = Some tv1 ->
  Lookup (Tag f2) tag = Some tv2 ->
  head (Split tv1 ",") = head (Split tv2 ",") ->
  (forall t, t ∈ Split tv1 "," <-> t ∈ Split tv2 ",") ->
  tagsReader f1 tag = tagsReader f2 tag.
Proof.
  intros H1 H2 Hhd Hset. rewrite !tagsReader_returns, H1, H2, Hhd.
  do 2 f_equal. apply Z.bits_inj'. intros n Hn.
  rewrite !foldl_optionFlag_testbit by done. f_equal.
  apply bool_decide_ext. rewrite !Exists_exists.
  split; intros (t & Hin & Ht); exists t; (split; [by apply Hset|done]).
Qed.

Lemma tagsReader_option_order_witness :
  tagsReader (exported "A" [("json", "a,dive,omitempty,dive")]) "json"
  = tagsReader (exported "B" [("json", "a,omitempty,dive")]) "json".
Proof.
  apply (tagsReader_option_order _ _ "json" "a,dive,omitempty,dive" "a,omitempty,dive");
    try reflexivity.
  intros t. change (Split "a,dive,omitempty,dive" ",")
    with ["a"; "dive"; "omitempty"; "dive"].
  change (Split "a,omitempty,dive" ",") with ["a"; "omitempty"; "dive"].
  rewrite !elem_of_cons, !elem_of_nil. tauto.
Defined.

Lemma Call_callable (m : Method) :
  Call m =
  if callableWithoutArguments m
  then match m with MkMethod _ _ body => body end
  else Panic "reflect: Call with too few input arguments".
Proof.
  destruct m as [numIn variadic body]. simpl.
  destruct variadic; [by destruct (numIn - 1)%nat|by destruct numIn].
Qed.

(** What the hook does once the method is found. *)
Lemma assignValueWithMethod_found reflectedValue method m :
  method <> "" -> MethodByName reflectedValue method = Some m ->
  (bool_decide (Kind reflectedValue = reflect.Interface) && IsNil reflectedValue = true ->
   assignValueWithMethod reflectedValue method
   = Panic "reflect: Method on nil interface value")
  /\ (bool_decide (Kind reflectedValue = reflect.Interface) && IsNil reflectedValue = false ->
      forall msg, Call m = Panic msg ->
      assignValueWithMethod reflectedValue method = Panic msg)
  /\ (bool_decide (Kind reflectedValue = reflect.Interface) && IsNil reflectedValue = false ->
      forall results, Call m = Ret results ->
      exists r, assignValueWithMethod reflectedValue method = Ret r).
Proof.
  intros Hne Hm. unfold assignValueWithMethod, callFunc.
  rewrite decide_False, Hm by done.
  split_and!.
  - by intros ->.
  - by intros -> msg ->.
  - intros -> results ->.
    destruct results as [|r0 [|r1 [|r2 rest]]]; simpl; try (by eauto).
    destruct (negb _); by eauto.
Qed.

(** X11: the hook panics exactly when a method of the given (non-empty)
    name exists and the value is a nil interface, or the method cannot be
    called without arguments, or the method itself panics when it runs; the
    message is that of the cause. It never reaches [callFunc] without the
    method: [callFunc] alone panics on a missing method, the hook returns
    the no-op there; and reading the outputs never panics. *)
Theorem override_hook_panics (reflectedValue : value) (method : string) :
  (forall msg,
      assignValueWithMethod reflectedValue method = Panic msg
      <-> method <> ""
          /\ exists numIn variadic body,
               MethodByName reflectedValue method = Some (MkMethod numIn variadic body)
               /\ ((Kind reflectedValue = reflect.Interface
                    /\ IsNil reflectedValue = true
                    /\ msg = "reflect: Method on nil interface value")
                   \/ ((Kind reflectedValue = reflect.Interface ->
                        IsNil reflectedValue = false)
                       /\ callableWithoutArguments (MkMethod numIn variadic body) = false
                       /\ msg = "reflect: Call with too few input arguments")
                   \/ ((Kind reflectedValue = reflect.Interface ->
                        IsNil reflectedValue = false)
                       /\ callableWithoutArguments (MkMethod numIn variadic body) = true
                       /\ body = Panic msg)))
  /\ (MethodByName reflectedValue method = None ->
      callFunc reflectedValue method
      = Panic "reflect: call of reflect.Value.Call on zero Value"
      /\ assignValueWithMethod reflectedValue method = Ret ("", ANil, None)).
Proof.
  split.
  - intros msg.
    destruct (decide (method = "")) as [->|Hne]; [by split; [|intros [? _]]|].
    destruct (MethodByName reflectedValue method) as [m|] eqn:Hm.
    2: { unfold assignValueWithMethod. rewrite Hm, decide_False by done.
         split; [done|]. by intros (_ & ? & ? & ? & ? & _). }
    destruct (assignValueWithMethod_found _ _ _ Hne Hm) as (Hnil & Hpanic & Hok).
    pose proof (Call_callable m) as Hcall.
    destruct m as [numIn variadic body].
    destruct (bool_decide _ && IsNil _) eqn:Hi.
    + rewrite Hnil by done.
      apply andb_true_iff in Hi as [Hk%bool_decide_eq_true Hn]. split.
      * intros [= <-]. split; [done|]. eexists _, _, _. split; [done|]. by left.
      * intros (_ & ? & ? & ? & [= <- <- <-] & [(_ & _ & ->)|[(Hc & _)|(Hc & _)]]);
          [done|specialize (Hc Hk); congruence..].
    + assert (Hni : Kind reflectedValue = reflect.Interface ->
                    IsNil reflectedValue = false).
      { intros Hk. by rewrite bool_decide_eq_true_2 in Hi. }
      destruct (callableWithoutArguments (MkMethod numIn variadic body)) eqn:Hc.
      * destruct body as [results|msg'].
        -- destruct (Hok eq_refl results Hcall) as [r ->]. split; [done|].
           intros (_ & ? & ? & ? & [= <- <- <-] & Hcase).
           destruct Hcase as [(Hk & Hn & _)|[(_ & ? & _)|(_ & _ & ?)]];
             [|congruence..]. specialize (Hni Hk). congruence.
        -- rewrite (Hpanic eq_refl msg' Hcall). split.
           ++ intros [= <-]. split; [done|]. eexists _, _, _. split; [done|].
              right. right. done.
           ++ intros (_ & ? & ? & ? & [= <- <- <-] & Hcase).
              destruct Hcase as [(Hk & Hn & _)|[(_ & ? & _)|(_ & _ & ?)]];
                [|congruence..]. specialize (Hni Hk). congruence.
      * rewrite (Hpanic eq_refl _ Hcall). split.
        -- intros [= <-]. split; [done|]. eexists _, _, _. split; [done|].
           right. left. done.
        -- intros (_ & ? & ? & ? & [= <- <- <-] & Hcase).
           destruct Hcase as [(Hk & Hn & _)|[(_ & _ & ->)|(_ & ? & _)]];
             [|done|congruence]. specialize (Hni Hk). congruence.
  - intros Hm. unfold assignValueWithMethod, callFunc. rewrite Hm.
    split; [done|]. by case_decide.
Qed.

Lemma override_hook_panics_witness :
  assignValueWithMethod valueWithM1 "M"
  = Panic "reflect: Call with too few input arguments".
Proof.
  apply (proj1 (override_hook_panics valueWithM1 "M")).
  split; [discriminate|]. eexists _, _, _. split; [reflexivity|].
  right. left. split_and!; [discriminate|reflexivity..].
Defined.



(** ** Error messages *)

Lemma callFunc_error_method reflectedValue method key value err :
  callFunc reflectedValue method = Ret (key, value, Some err) ->
  err = ErrMethodOutputs method \/ err = ErrMethodFirstOutput method.
Proof.
  unfold callFunc. destruct (MethodByName _ _) as [m|]; [|done].
  destruct (_ && _); [done|]. destruct (Call m) as [results|]; [|done].
  destruct (negb _); [intros [= <- <- <-]; by left|].
  destruct results as [|r0 [|r1 rest]]; [done..|].
  destruct (negb _); [intros [= <- <- <-]; by right|done].
Qed.

Lemma assignValueWithMethod_error_method reflectedValue method key value err :
  assignValueWithMethod reflectedValue method = Ret (key, value, Some err) ->
  err = ErrMethodOutputs method \/ err = ErrMethodFirstOutput method.
Proof.
  unfold assignValueWithMethod. case_decide; [done|].
  destruct (MethodByName _ _) as [m|]; [|done].
  destruct (callFunc _ _) as [[[k v] [e|]]|] eqn:Hc; [|done..].
  intros [= <- <- <-]. by eapply callFunc_error_method.
Qed.

Lemma fieldBody_Return_method ro self tag method result fieldType fieldValue r :
  fieldBody ro self tag method result fieldType fieldValue = Return r ->
  exists e, r = (None, Some e) /\
    ((e = ErrMethodOutputs method \/ e = ErrMethodFirstOutput method)
     \/ exists fv m fields,
          resolved fieldValue = Some fv /\ dataOf fv = DStruct fields
          /\ self fv = Ret (m, Some e)).
Proof.
  unfold fieldBody, resolved.
  destruct (negb _); [done|].
  destruct (tagsReader _ _) as [[tagVal flag]|]; [|done].
  destruct (hasFlag _ FLAG_IGNORE); [done|].
  destruct (_ && IsZero _); [done|].
  assert (Hd : forall fv,
    dispatch ro self method tagVal flag result fv = Return r ->
    exists e, r = (None, Some e) /\
      ((e = ErrMethodOutputs method \/ e = ErrMethodFirstOutput method)
       \/ exists m fields, dataOf fv = DStruct fields /\ self fv = Ret (m, Some e))).
  { intros fv. unfold dispatch.
    destruct (assignValueWithMethod fv method) as [[[key value] [err|]]|] eqn:Hh;
      [| |done].
    - intros [= <-]. apply assignValueWithMethod_error_method in Hh. by eauto.
    - destruct (negb _); [done|].
      intros (e & m & fields & -> & ? & ?)%kindSwitch_Return. by eauto 8. }
  case_bool_decide; simpl.
  - destruct (IsNil fieldValue); [done|].
    intros (e & -> & [?|(m & fields & ? & ?)])%Hd; by eauto 10.
  - intros (e & -> & [?|(m & fields & ? & ?)])%Hd; by eauto 10.
Qed.

(** An error of the loop, at any depth, names the method of the call. *)
Lemma StructToMapOf_loop_error_method ro tag method v :
  forall rv fields m e,
    resolved v = Some rv -> dataOf rv = DStruct fields ->
    StructToMapOf ro tag method rv = Ret (m, Some e) ->
    e = ErrMethodOutputs method \/ e = ErrMethodFirstOutput method.
Proof.
  induction v as [ms d IHptr IHfields] using value_ind_deep.
  intros rv fields m e Hrv Hd. rewrite resolved_cases in Hrv.
  destruct d as [| | | | | | | | | | | | |[x|]| |fs]; try (by simplify_eq/=).
  - injection Hrv as ->.
    apply (IHptr rv eq_refl rv fields m e); [|done]. by eapply resolved_struct.
  - injection Hrv as <-. simpl in Hd. injection Hd as ->.
    specialize (IHfields fields eq_refl). rewrite StructToMapOf_struct.
    destruct (forFields _ _ _) as [result|r|] eqn:Hloop; simpl; [done| |done].
    intros [= ->].
    refine (forFields_Return _
      (fun r => forall m e, r = (m, Some e) ->
                e = ErrMethodOutputs method \/ e = ErrMethodFirstOutput method)
      _ _ _ _ Hloop m e eq_refl).
    eapply Forall_impl; [exact IHfields|].
    intros [ft fvl] IH result1 r1 Hb m1 e1 ->. simpl in *.
    apply fieldBody_Return_method in Hb
      as (e' & [= -> ->] & [?|(fv & m' & fs & ? & ? & ?)]); [done|].
    by eapply IH.
Qed.

(** X13: the text of every error the conversion returns. A nil pointer
    gives [ptr is a nil pointer]; an input that is not a struct gives
    [data is not a struct but] followed by the name of its kind after at
    most one dereference; an error of the override hook, at any depth of
    nesting, names the method given to the call. *)
Theorem StructToMap_error_message (ro : RangeOrder) (data : option value)
    (tag method : string) (m : option MappedStruct) (e : error) :
  StructToMap ro data tag method = Ret (m, Some e) ->
  match errorKind e with
  | NilInput => Error e = "ptr is a nil pointer"
  | NotARecord =>
      exists k, resolvedKind data = Some k /\ k <> reflect.Struct
                /\ Error e = "data is not a struct but " +:+ reflect.Kind_String k
  | InvalidOverrideSignature =>
      Error e = ("wrong method " +:+ method)
                  +:+ ", should have 2 output: (string,interface{})"
      \/ Error e = ("wrong method " +:+ method) +:+ ", first output should be string"
  end.
Proof.
  destruct data as [v|]; simpl.
  - intros Hs. pose proof Hs as Hs'. rewrite StructToMapOf_unfold in Hs'.
    destruct (resolved v) as [rv|] eqn:Hrv.
    + destruct (dataOf rv) eqn:Hd;
        try (injection Hs' as <- <-; simpl; exists (Kind rv);
             destruct rv as [ms d]; simpl in Hd; subst d;
             split_and!; try done; by try destruct sz).
      rewrite (StructToMapOf_resolved _ _ _ v rv fields) in Hs by done.
      by destruct (StructToMapOf_loop_error_method _ _ _ _ _ _ _ _ Hrv Hd Hs)
        as [->| ->]; simpl; [left|right].
    + injection Hs' as <- <-. simpl. destruct v as [ms d].
      rewrite resolved_cases in Hrv.
      by destruct d as [| | | | | | | | | | | | |[x|]| |].
  - intros [= <- <-]. simpl. by exists reflect.Invalid.
Qed.

Lemma StructToMap_error_message_witness :
  exists k, resolvedKind (Some (Val [] (DInt SizeInt 7))) = Some k
            /\ k <> reflect.Struct
            /\ Error (ErrNotStruct reflect.Int)
               = "data is not a struct but " +:+ reflect.Kind_String k.
Proof.
  apply (StructToMap_error_message keyOrder (Some (Val [] (DInt SizeInt 7)))
           "json" "" None (ErrNotStruct reflect.Int)).
  reflexivity.
Defined.

(** X14: the message of an error tells its kind: two errors of the package
    with the same text are of the same kind. *)
Theorem Error_determines_kind (e1 e2 : error) :
  Error e1 = Error e2 -> errorKind e1 = errorKind e2.
Proof.
  destruct e1 as [k1|k1|m1|m1], e2 as [k2|k2|m2|m2]; simpl; try done;
    try (destruct k1; simpl; discriminate);
    try (destruct k2; simpl; discriminate);
    destruct k1, k2; simpl; discriminate.
Qed.

Lemma Error_determines_kind_witness :
  errorKind (ErrMethodOutputs "M") = errorKind (ErrMethodOutputs "M").
Proof.
  apply (Error_determines_kind (ErrMethodOutputs "M") (ErrMethodOutputs "M")).
  reflexivity.
Defined.

(** ** What a field contributes depends on *)

Lemma fieldBody_sameDirective ro self tag method result a b fieldValue :
  sameDirective tag a b ->
  fieldBody ro self tag method result a fieldValue
  = fieldBody ro self tag method result b fieldValue.
Proof.
  intros [Hp Hl]. unfold fieldBody. by rewrite !tagsReader_returns, Hp, Hl.
Qed.

(** X15: the result depends on a field only through its visibility, its tag
    value under the chosen namespace and its value: the names of the fields,
    their tags under other namespaces, and the methods of the record's own
    type play no part. *)
Theorem StructToMap_depends_on_directive (ro : RangeOrder) (tag method : string)
    (ms ms' : list (string * Method)) (l l' : list (StructField * value)) :
  Forall2 (fun a b => sameDirective tag a.1 b.1 /\ a.2 = b.2) l l' ->
  StructToMap ro (Some (Val ms (DStruct l))) tag method
  = StructToMap ro (Some (Val ms' (DStruct l'))) tag method.
Proof.
  intros Hall. unfold StructToMap. rewrite !StructToMapOf_struct. f_equal.
  generalize (∅ : MappedStruct).
  induction Hall as [|[a va] [b vb] l l' [Hd Hv] _ IH]; intros result; simpl; [done|].
  simpl in Hd, Hv. subst vb.
  rewrite (fieldBody_sameDirective _ _ _ _ _ a b) by done.
  by destruct (fieldBody _ _ _ _ _ _ _).
Qed.

Lemma StructToMap_depends_on_directive_witness :
  StructToMap keyOrder
    (Some (Val [] (DStruct [(exported "Name" [("json", "n"); ("yaml", "name")],
                             Val [] (DString "x"))])))
    "json" ""
  = StructToMap keyOrder
      (Some (Val [("M", methodM)]
                 (DStruct [(exported "Other" [("xml", "o"); ("json", "n")],
                            Val [] (DString "x"))])))
      "json" "".
Proof.
  apply (StructToMap_depends_on_directive keyOrder "json" "").
  apply List.Forall2_cons; [|apply List.Forall2_nil].
  repeat split; reflexivity.
Defined.

(** ** A method name that no type has *)

Lemma lacksMethod_resolved name v fv :
  lacksMethod name v = true -> resolved v = Some fv ->
  lacksMethod name fv = true /\ MethodByName fv name = None.
Proof.
  destruct v as [ms d]. rewrite resolved_cases. simpl.
  destruct (lookupMethod ms name) eqn:Hm; [done|].
  assert (Hfv : lacksMethod name fv = true ->
                lacksMethod name fv = true /\ MethodByName fv name = None).
  { intros Hl. split; [done|]. destruct fv as [ms' d']. simpl in *.
    unfold MethodByName. simpl. by destruct (lookupMethod ms' name). }
  destruct d as [| | | | | | | | | | | | |[x|]| |]; intros Hl [= <-];
    apply Hfv; simpl; by rewrite ?Hm.
Qed.

Lemma fieldBody_method_ext ro self self' tag method result fieldType fieldValue :
  (forall fv, resolved fieldValue = Some fv ->
              MethodByName fv method = None
              /\ forall fields, dataOf fv = DStruct fields -> self fv = self' fv) ->
  fieldBody ro self tag method result fieldType fieldValue
  = fieldBody ro self' tag "" result fieldType fieldValue.
Proof.
  intros Hfv. unfold fieldBody. unfold resolved in Hfv.
  destruct (negb _); [done|].
  destruct (tagsReader _ _) as [[tagVal flag]|]; [|done].
  destruct (hasFlag flag FLAG_IGNORE); [done|].
  destruct (_ && IsZero _); [done|].
  assert (Hd : forall fv,
    MethodByName fv method = None ->
    (forall fields, dataOf fv = DStruct fields -> self fv = self' fv) ->
    dispatch ro self method tagVal flag result fv
    = dispatch ro self' "" tagVal flag result fv).
  { intros fv Hm Hself. unfold dispatch, assignValueWithMethod. rewrite Hm.
    destruct (decide (method = "")); simpl; by apply kindSwitch_ext. }
  case_bool_decide; simpl.
  - destruct (IsNil fieldValue); [done|]. by apply Hd; apply Hfv.
  - by apply Hd; apply Hfv.
Qed.

Lemma StructToMapOf_lacksMethod ro tag method v :
  lacksMethod method v = true ->
  forall rv fields,
    resolved v = Some rv -> dataOf rv = DStruct fields ->
    StructToMapOf ro tag method rv = StructToMapOf ro tag "" rv.
Proof.
  induction v as [ms d IHptr IHfields] using value_ind_deep.
  intros Hl rv fields Hrv Hd.
  destruct (lacksMethod_resolved _ _ _ Hl Hrv) as [Hlrv _].
  rewrite resolved_cases in Hrv.
  destruct d as [| | | | | | | | | | | | |[x|]| |fs]; try (by simplify_eq/=).
  - injection Hrv as ->.
    apply (IHptr rv eq_refl Hlrv rv fields); [|done]. by eapply resolved_struct.
  - injection Hrv as <-. simpl in Hd. injection Hd as ->.
    specialize (IHfields fields eq_refl). rewrite !StructToMapOf_struct. f_equal.
    simpl in Hl. destruct (lookupMethod ms method); [done|].
    apply forFields_ext. apply Forall_forall. intros [ft fvl] Hin result. simpl.
    apply fieldBody_method_ext. intros fv Hfv.
    assert (Hlf : lacksMethod method fvl = true).
    { rewrite forallb_forall in Hl. apply (Hl (ft, fvl)). by apply list_elem_of_In. }
    destruct (lacksMethod_resolved _ _ _ Hlf Hfv) as [_ Hm]. split; [done|].
    intros fs Hfs. rewrite Forall_forall in IHfields.
    by apply (IHfields (ft, fvl) Hin Hlf fv fs).
Qed.

(** X16: the method name matters only through the types that have such a
    method: when neither the input's type nor any type below it (through
    pointers and struct fields) has a method of that name, the call behaves
    as with the hook disabled. *)
Theorem StructToMap_method_not_found (ro : RangeOrder) (data : value)
    (tag method : string) :
  lacksMethod method data = true ->
  StructToMap ro (Some data) tag method = StructToMap ro (Some data) tag "".
Proof.
  intros Hl. unfold StructToMap. rewrite !StructToMapOf_unfold.
  destruct (resolved data) as [rv|] eqn:Hrv; [|done].
  destruct (dataOf rv) eqn:Hd; try done.
  rewrite <- !StructToMapOf_struct with (ms := methodsOf rv).
  replace (Val (methodsOf rv) (DStruct fields)) with rv
    by (destruct rv; simpl in *; by subst).
  by eapply StructToMapOf_lacksMethod.
Qed.

Lemma StructToMap_method_not_found_witness :
  StructToMap keyOrder (Some recordWithOverride) "json" "N"
  = StructToMap keyOrder (Some recordWithOverride) "json" "".
Proof.
  apply (StructToMap_method_not_found keyOrder recordWithOverride "json" "N").
  reflexivity.
Defined.

(** ** The empty key *)

(** X17: the parser gives the empty key exactly when the tag value is empty
    or begins with a comma (as in [json:",omitempty"]); it puts nothing in
    the place of an empty key, the field name included. *)
Theorem tagsReader_empty_key (structField : StructField) (tag tagValue key : string)
    (flag : Z) :
  Lookup (Tag structField) tag = Some tagValue ->
  tagsReader structField tag = Ret (key, flag) ->
  key = "" <-> tagValue = "" \/ exists rest, tagValue = String.String "," rest.
Proof.
  intros Hl. rewrite tagsReader_returns, Hl. intros [= <- _].
  destruct tagValue as [|c rest]; simpl.
  - split; [by left|done].
  - destruct (decide (c = ","%char)) as [->|Hc]; simpl.
    + split; [|done]. intros _. right. by exists rest.
    + destruct (Split_cons rest ",") as (k & r & ->). simpl.
      split; [done|]. intros [?|[rest' ?]]; [done|congruence].
Qed.

Lemma tagsReader_empty_key_witness :
  "" = "" <-> ",omitempty" = "" \/ exists rest, ",omitempty" = String.String "," rest.
Proof.
  apply (tagsReader_empty_key (exported "X" [("json", ",omitempty")]) "json"
           ",omitempty" "" 2); reflexivity.
Defined.
